(** * Humidity/temperature monitor: sensor, reading store, alarm, batch controller

    A shallow embedding of [pseudo_sensor.py] and of the [SensorApp] controller
    of [GUIProject/main.py], with the properties of the sampling / storage /
    alarm pipeline proved over it.

    Modelling conventions.
    - A Python [float] that the program handles is a finite double, hence a
      rational: it is embedded as a [Q].  The program only compares, clamps
      and stores these numbers; its single arithmetic operation is
      [band + jitter], where the jitter is an input of the model.  Every
      theorem quantifies over all rational jitters, so whatever value the
      rounded double sum takes is covered (it is [band + j'] for another
      rational [j']).
    - [random.uniform] and [time.time] are inputs of the handlers.
    - An exception is a value of [exn]; fallible code returns a [result].
      [exn] holds the exceptions of the handlers' own code.  The store is
      taken to be available: a failure of a sqlite3 call, and a failure of
      [fmt_ts] on a timestamp outside the platform's range, are not
      modelled.
    - The [readings] table is the list of its rows in insertion order.
    - Formatted texts ([f"...{h:.1f}..."]) are kept symbolic in their
      arguments. *)

From Stdlib Require Import ZArith QArith List Bool String Lia Lqa.
From Stdlib Require Import Sorting.Sorted Sorting.Permutation.
Import ListNotations.

Open Scope Z_scope.

(** ** Exceptions *)

Inductive exn : Type :=
| IndexError       (* list index out of range *)
| OverflowError    (* Python int too large to convert to SQLite INTEGER *)
| ValueError       (* min() or max() of an empty sequence *)
| StatisticsError. (* mean of an empty sequence *)

Inductive result (A : Type) : Type :=
| Ok (a : A)
| Raise (e : exn).

Arguments Ok {A} a.
Arguments Raise {A} e.

Definition bind {A B : Type} (m : result A) (k : A -> result B) : result B :=
  match m with
  | Ok a => k a
  | Raise e => Raise e
  end.

Notation "x <- m ;; k" := (bind m (fun x => k))
  (at level 61, m at next level, right associativity).
Notation "' p <- m ;; k" := (bind m (fun x => match x with p => k end))
  (at level 61, p pattern, m at next level, right associativity).

(** ** Python built-ins on numbers and lists *)

(** [x < y] on floats. *)
Definition Qltb (x y : Q) : bool := negb (Qle_bool y x).

(** [min(a, b)]: the first argument is kept unless a later one is smaller. *)
Definition py_min (a b : Q) : Q := if Qltb b a then b else a.

(** [max(a, b)]: the first argument is kept unless a later one is greater. *)
Definition py_max (a b : Q) : Q := if Qltb a b then b else a.

(** The same two built-ins on [int]. *)
Definition py_min_int (a b : Z) : Z := if b <? a then b else a.
Definition py_max_int (a b : Z) : Z := if a <? b then b else a.

(** [int(x)] of a float: truncation towards zero. *)
Definition py_int (x : Q) : Z := Z.quot (Qnum x) (Zpos (Qden x)).

(** [min(l)] and [max(l)] of a sequence. *)
Definition py_min_seq (l : list Q) : result Q :=
  match l with
  | [] => Raise ValueError
  | x :: rest => Ok (fold_left py_min rest x)
  end.

Definition py_max_seq (l : list Q) : result Q :=
  match l with
  | [] => Raise ValueError
  | x :: rest => Ok (fold_left py_max rest x)
  end.

(** [len(l)]. *)
Definition len {A : Type} (l : list A) : Z := Z.of_nat (List.length l).

(** [statistics.mean(l)]. *)
Definition mean (l : list Q) : result Q :=
  match l with
  | [] => Raise StatisticsError
  | _ :: _ => Ok (fold_left Qplus l (0 # 1) / inject_Z (len l))%Q
  end.

(** [l[i]]: a negative index counts from the end, an index outside
    [-len(l) .. len(l)-1] raises [IndexError]. *)
Definition getitem {A : Type} (l : list A) (i : Z) : result A :=
  let j := if i <? 0 then i + len l else i in
  if j <? 0 then Raise IndexError
  else match nth_error l (Z.to_nat j) with
       | Some a => Ok a
       | None => Raise IndexError
       end.

(** ** pseudo_sensor.py *)

Module PseudoSensor.

(** Humidity bands, 0 to 100 percent. *)
Definition h_range : list Z :=
  [0; 20; 20; 40; 40; 60; 60; 80; 80; 90; 70; 50; 30; 10; 0].

(** Temperature bands in Fahrenheit, -20 to 100. *)
Definition t_range : list Z :=
  [-20; -10; 0; 10; 30; 50; 70; 85; 95; 100; 90; 70; 50; 30; 10].

Record t : Type := mk {
  h_index : Z;
  t_index : Z;
  hum_val : Q;
  temp_val : Q
}.

(** [__init__]. *)
Definition init : t :=
  {| h_index := 0; t_index := 0; hum_val := 0 # 1; temp_val := (-20) # 1 |}.

(** [generate_values], given the two outcomes [jh] of [random.uniform(0, 10)]
    and [jt] of [random.uniform(0, 5)].  Returns [(h, t)] and the updated
    sensor. *)
Definition generate_values (self : t) (jh jt : Q) : result ((Q * Q) * t) :=
  hb <- getitem h_range (h_index self) ;;
  let hum := (inject_Z hb + jh)%Q in
  tb <- getitem t_range (t_index self) ;;
  let temp := (inject_Z tb + jt)%Q in
  let hi := (h_index self + 1) mod len h_range in
  let ti := (t_index self + 1) mod len t_range in
  let h := py_max (0 # 1) (py_min hum (100 # 1)) in
  let t := py_max ((-20) # 1) (py_min temp (100 # 1)) in
  Ok ((h, t), {| h_index := hi; t_index := ti; hum_val := hum; temp_val := temp |}).

(** The indices a sensor built by [init] and advanced by [generate_values]
    can hold. *)
Definition valid (self : t) : Prop :=
  0 <= h_index self < len h_range /\ 0 <= t_index self < len t_range.

End PseudoSensor.

(** ** GUIProject/main.py *)

(** A row of the table [readings(ts, humidity, temperature)], as the tuple
    that [fetchall] returns. *)
Definition row : Type := (Q * Q * Q)%type.

Definition row_ts (r : row) : Q := fst (fst r).
Definition row_humidity (r : row) : Q := snd (fst r).
Definition row_temperature (r : row) : Q := snd r.

(** Texts shown by the widgets.  A formatted text keeps the values it is
    built from. *)
Inductive text : Type :=
| Lit (s : string)
| HumidityText (h : Q)           (* f"Humidity: {h:.1f} %" *)
| TemperatureText (t : Q)        (* f"Temperature: {t:.1f} °F" *)
| LastReadingAt (ts : Q)         (* f"Last reading at: {fmt_ts(ts)}" *)
| BatchRemaining (n : Z)         (* f"Reading batch... remaining: {n}" *)
| StatsText (n : Z) (newest_ts : Q)
            (h_min h_max h_avg t_min t_max t_avg : Q)
| RecordLines (lines : list row). (* one line per row, joined by newlines *)

(** A dialog opened by a handler: window title and content. *)
Inductive dialog : Type :=
| Information (title : string) (body : text)
| RecordsDialog (title : string) (body : text).

(** The alarm indicator: its text and its style sheet. *)
Record indicator : Type := mk_indicator {
  ind_text : string;
  ind_style : string
}.

(** The attributes of a [SensorApp] instance that the handlers read or
    write.  [conn] stands for the content of the table behind the
    connection, oldest row first; [batch_timer] is [batch_timer.isActive()];
    the two [btn_] fields are the buttons' enabled flags; the two bars are
    the bars' values; [h_alarm] and [t_alarm] are the values held by the
    threshold controls. *)
Record SensorApp : Type := mk_app {
  sensor : PseudoSensor.t;
  conn : list row;
  h_label : text;
  t_label : text;
  ts_label : text;
  h_bar : Z;
  t_bar : Z;
  h_alarm : Q;
  t_alarm : Q;
  alarm_label : indicator;
  status_label : text;
  btn_read_one : bool;
  btn_read_ten : bool;
  batch_timer : bool;
  batch_remaining : Z
}.

(** Attribute assignments. *)
Definition set_sensor (a : SensorApp) (v : PseudoSensor.t) : SensorApp :=
  mk_app v (conn a) (h_label a) (t_label a) (ts_label a) (h_bar a) (t_bar a)
         (h_alarm a) (t_alarm a) (alarm_label a) (status_label a)
         (btn_read_one a) (btn_read_ten a) (batch_timer a) (batch_remaining a).
Definition set_conn (a : SensorApp) (v : list row) : SensorApp :=
  mk_app (sensor a) v (h_label a) (t_label a) (ts_label a) (h_bar a) (t_bar a)
         (h_alarm a) (t_alarm a) (alarm_label a) (status_label a)
         (btn_read_one a) (btn_read_ten a) (batch_timer a) (batch_remaining a).
Definition set_h_label (a : SensorApp) (v : text) : SensorApp :=
  mk_app (sensor a) (conn a) v (t_label a) (ts_label a) (h_bar a) (t_bar a)
         (h_alarm a) (t_alarm a) (alarm_label a) (status_label a)
         (btn_read_one a) (btn_read_ten a) (batch_timer a) (batch_remaining a).
Definition set_t_label (a : SensorApp) (v : text) : SensorApp :=
  mk_app (sensor a) (conn a) (h_label a) v (ts_label a) (h_bar a) (t_bar a)
         (h_alarm a) (t_alarm a) (alarm_label a) (status_label a)
         (btn_read_one a) (btn_read_ten a) (batch_timer a) (batch_remaining a).
Definition set_ts_label (a : SensorApp) (v : text) : SensorApp :=
  mk_app (sensor a) (conn a) (h_label a) (t_label a) v (h_bar a) (t_bar a)
         (h_alarm a) (t_alarm a) (alarm_label a) (status_label a)
         (btn_read_one a) (btn_read_ten a) (batch_timer a) (batch_remaining a).
Definition set_h_bar (a : SensorApp) (v : Z) : SensorApp :=
  mk_app (sensor a) (conn a) (h_label a) (t_label a) (ts_label a) v (t_bar a)
         (h_alarm a) (t_alarm a) (alarm_label a) (status_label a)
         (btn_read_one a) (btn_read_ten a) (batch_timer a) (batch_remaining a).
Definition set_t_bar (a : SensorApp) (v : Z) : SensorApp :=
  mk_app (sensor a) (conn a) (h_label a) (t_label a) (ts_label a) (h_bar a) v
         (h_alarm a) (t_alarm a) (alarm_label a) (status_label a)
         (btn_read_one a) (btn_read_ten a) (batch_timer a) (batch_remaining a).
Definition set_h_alarm (a : SensorApp) (v : Q) : SensorApp :=
  mk_app (sensor a) (conn a) (h_label a) (t_label a) (ts_label a) (h_bar a)
         (t_bar a) v (t_alarm a) (alarm_label a) (status_label a)
         (btn_read_one a) (btn_read_ten a) (batch_timer a) (batch_remaining a).
Definition set_t_alarm (a : SensorApp) (v : Q) : SensorApp :=
  mk_app (sensor a) (conn a) (h_label a) (t_label a) (ts_label a) (h_bar a)
         (t_bar a) (h_alarm a) v (alarm_label a) (status_label a)
         (btn_read_one a) (btn_read_ten a) (batch_timer a) (batch_remaining a).
Definition set_alarm_label (a : SensorApp) (v : indicator) : SensorApp :=
  mk_app (sensor a) (conn a) (h_label a) (t_label a) (ts_label a) (h_bar a)
         (t_bar a) (h_alarm a) (t_alarm a) v (status_label a)
         (btn_read_one a) (btn_read_ten a) (batch_timer a) (batch_remaining a).
Definition set_status_label (a : SensorApp) (v : text) : SensorApp :=
  mk_app (sensor a) (conn a) (h_label a) (t_label a) (ts_label a) (h_bar a)
         (t_bar a) (h_alarm a) (t_alarm a) (alarm_label a) v
         (btn_read_one a) (btn_read_ten a) (batch_timer a) (batch_remaining a).
Definition set_btn_read_one (a : SensorApp) (v : bool) : SensorApp :=
  mk_app (sensor a) (conn a) (h_label a) (t_label a) (ts_label a) (h_bar a)
         (t_bar a) (h_alarm a) (t_alarm a) (alarm_label a) (status_label a)
         v (btn_read_ten a) (batch_timer a) (batch_remaining a).
Definition set_btn_read_ten (a : SensorApp) (v : bool) : SensorApp :=
  mk_app (sensor a) (conn a) (h_label a) (t_label a) (ts_label a) (h_bar a)
         (t_bar a) (h_alarm a) (t_alarm a) (alarm_label a) (status_label a)
         (btn_read_one a) v (batch_timer a) (batch_remaining a).
Definition set_batch_timer (a : SensorApp) (v : bool) : SensorApp :=
  mk_app (sensor a) (conn a) (h_label a) (t_label a) (ts_label a) (h_bar a)
         (t_bar a) (h_alarm a) (t_alarm a) (alarm_label a) (status_label a)
         (btn_read_one a) (btn_read_ten a) v (batch_remaining a).
Definition set_batch_remaining (a : SensorApp) (v : Z) : SensorApp :=
  mk_app (sensor a) (conn a) (h_label a) (t_label a) (ts_label a) (h_bar a)
         (t_bar a) (h_alarm a) (t_alarm a) (alarm_label a) (status_label a)
         (btn_read_one a) (btn_read_ten a) (batch_timer a) v.

(** *** Widgets *)

(** [QProgressBar.setValue] on a bar of range [lo .. hi] whose value is
    [cur]: a value outside the range is ignored. *)
Definition bar_setValue (lo hi cur v : Z) : Z :=
  if (v <? lo) || (hi <? v) then cur else v.

(** *** DB *)

(** An [int] bound to a statement parameter must fit SQLite's 64-bit
    INTEGER. *)
Definition sqlite_int64 (n : Z) : result Z :=
  if (- 2 ^ 63 <=? n) && (n <=? 2 ^ 63 - 1) then Ok n else Raise OverflowError.

(** [ORDER BY ts DESC].  SQL leaves the relative order of rows with equal
    [ts] open; this sort keeps them in insertion order.  No theorem below
    depends on that choice. *)
Fixpoint insert_desc (r : row) (sorted : list row) : list row :=
  match sorted with
  | [] => [r]
  | y :: rest =>
      if Qle_bool (row_ts y) (row_ts r) then r :: y :: rest
      else y :: insert_desc r rest
  end.

Definition order_by_ts_desc (rows : list row) : list row :=
  fold_right insert_desc [] rows.

(** [LIMIT n]: a negative [n] sets no upper bound. *)
Definition limit (n : Z) (rows : list row) : list row :=
  if n <? 0 then rows else firstn (Z.to_nat n) rows.

(** [_insert_reading(h, t, ts)], [now] being what [time.time()] returns.
    Returns the timestamp stored and the updated application. *)
Definition _insert_reading (self : SensorApp) (now : Q) (h t : Q)
           (ts : option Q) : Q * SensorApp :=
  let ts := match ts with None => now | Some v => v end in
  (ts, set_conn self (conn self ++ [(ts, h, t)])).

(** [_fetch_last_n(n)]. *)
Definition _fetch_last_n (self : SensorApp) (n : Z) : result (list row) :=
  k <- sqlite_int64 n ;;
  Ok (limit k (order_by_ts_desc (conn self))).

(** *** UI helpers *)

Definition _set_alarm_state (self : SensorApp) (alarm_on : bool) : SensorApp :=
  if alarm_on then
    set_alarm_label self
      (mk_indicator "ALARM!"
         "color: white; background:#c62828; padding:4px 8px; font-weight:700;")
  else
    set_alarm_label self
      (mk_indicator "No alarms"
         "color: #2e7d32; background:#e8f5e9; padding:4px 8px; font-weight:600;").

(** The local [alarm] of [_check_alarms]. *)
Definition alarm (self : SensorApp) (h t : Q) : bool :=
  Qltb (h_alarm self) h || Qltb (t_alarm self) t.

Definition _check_alarms (self : SensorApp) (h t : Q) : SensorApp :=
  _set_alarm_state self (alarm self h t).

Definition _update_latest_display (self : SensorApp) (h t : Q)
           (ts : option Q) : SensorApp :=
  let h_clamped := py_max_int 0 (py_min_int (py_int h) 100) in
  let t_clamped := py_max_int (-20) (py_min_int (py_int t) 100) in
  let self := set_h_label self (HumidityText h) in
  let self := set_t_label self (TemperatureText t) in
  let self := set_h_bar self (bar_setValue 0 100 (h_bar self) h_clamped) in
  let self := set_t_bar self (bar_setValue (-20) 100 (t_bar self) t_clamped) in
  let self := match ts with
              | Some v => set_ts_label self (LastReadingAt v)
              | None => self
              end in
  _check_alarms self h t.

(** *** Button actions *)

(** [read_one], given the jitters drawn by the sensor and the clock. *)
Definition read_one (self : SensorApp) (jh jt now : Q) : result SensorApp :=
  '(h, t, sensor') <- PseudoSensor.generate_values (sensor self) jh jt ;;
  let self := set_sensor self sensor' in
  let '(ts, self) := _insert_reading self now h t None in
  let self := _update_latest_display self h t (Some ts) in
  Ok (set_status_label self (Lit "Read 1: done.")).

Definition read_ten (self : SensorApp) : SensorApp :=
  if batch_timer self then self
  else
    let self := set_batch_remaining self 10 in
    let self := set_status_label self (Lit "Starting 10 reads...") in
    let self := set_btn_read_one self false in
    let self := set_btn_read_ten self false in
    set_batch_timer self true.

Definition _batch_read_tick (self : SensorApp) (jh jt now : Q)
  : result SensorApp :=
  '(h, t, sensor') <- PseudoSensor.generate_values (sensor self) jh jt ;;
  let self := set_sensor self sensor' in
  let '(ts, self) := _insert_reading self now h t None in
  let self := _update_latest_display self h t (Some ts) in
  let self := set_batch_remaining self (batch_remaining self - 1) in
  let self := set_status_label self (BatchRemaining (batch_remaining self)) in
  if batch_remaining self <=? 0 then
    let self := set_batch_timer self false in
    let self := set_btn_read_one self true in
    let self := set_btn_read_ten self true in
    Ok (set_status_label self (Lit "Read 10: complete."))
  else Ok self.

(** [show_stats] changes no attribute; it returns the dialog it opens. *)
Definition show_stats (self : SensorApp) : result dialog :=
  rows <- _fetch_last_n self 10 ;;
  match rows with
  | [] => Ok (Information "Stats" (Lit "No readings available yet."))
  | r0 :: _ =>
      let hs := map row_humidity rows in
      let ts_vals := map row_temperature rows in
      let newest_ts := row_ts r0 in
      h_min <- py_min_seq hs ;;
      h_max <- py_max_seq hs ;;
      h_avg <- mean hs ;;
      t_min <- py_min_seq ts_vals ;;
      t_max <- py_max_seq ts_vals ;;
      t_avg <- mean ts_vals ;;
      Ok (Information "Last 10 Stats"
            (StatsText (len rows) newest_ts h_min h_max h_avg t_min t_max t_avg))
  end.

Definition show_last10_records (self : SensorApp) : result dialog :=
  rows <- _fetch_last_n self 10 ;;
  match rows with
  | [] => Ok (Information "Last 10 Records" (Lit "No readings available yet."))
  | _ :: _ => Ok (RecordsDialog "Last 10 Records" (RecordLines (rev rows)))
  end.

(** [__init__], [db] being the rows already in the file [readings.db]
    (none when the file is new). *)
Definition init (db : list row) : SensorApp :=
  let self :=
    {| sensor := PseudoSensor.init;
       conn := db;
       h_label := Lit "Humidity: -- %";
       t_label := Lit "Temperature: -- °F";
       ts_label := Lit "Last reading at: —";
       h_bar := -1;
       t_bar := -1;
       h_alarm := 85 # 1;
       t_alarm := 90 # 1;
       alarm_label := mk_indicator "No alarms" "";
       status_label := Lit "Ready.";
       btn_read_one := true;
       btn_read_ten := true;
       batch_timer := false;
       batch_remaining := 0 |} in
  _set_alarm_state self false.

(** *** The event loop *)

(** What the event loop can deliver: a click on a button, a timeout of the
    batch timer, an edit of a threshold control.  A click or a timeout
    carries the values that [random.uniform] and [time.time] return while
    its handler runs; an edit carries the value the control holds after
    it.  [exit_app] closes the connection and the window, which ends the
    event loop: it is not an event of the model. *)
Inductive event : Type :=
| ClickReadOne (jh jt now : Q)
| ClickReadTen
| Timeout (jh jt now : Q)
| ClickStats
| ClickShowLast10
| EditHumidityAlarm (v : Q)
| EditTemperatureAlarm (v : Q).

(** One completed handler.  The timer delivers a timeout only while it is
    active; each threshold control keeps its value within its range.  The
    button handlers are not restricted by the buttons' enabled flags, so
    that calls of the methods from code are covered as well. *)
Inductive step : SensorApp -> event -> SensorApp -> Prop :=
| step_read_one s jh jt now s' :
    read_one s jh jt now = Ok s' ->
    step s (ClickReadOne jh jt now) s'
| step_read_ten s :
    step s ClickReadTen (read_ten s)
| step_timeout s jh jt now s' :
    batch_timer s = true ->
    _batch_read_tick s jh jt now = Ok s' ->
    step s (Timeout jh jt now) s'
| step_stats s d :
    show_stats s = Ok d ->
    step s ClickStats s
| step_show_last10 s d :
    show_last10_records s = Ok d ->
    step s ClickShowLast10 s
| step_edit_h s v :
    (0 <= v <= 100)%Q ->
    step s (EditHumidityAlarm v) (set_h_alarm s v)
| step_edit_t s v :
    (-20 <= v <= 100)%Q ->
    step s (EditTemperatureAlarm v) (set_t_alarm s v).

(** The states at which the event loop is idle, from a start on the file
    content [db]. *)
Inductive reachable (db : list row) : SensorApp -> Prop :=
| reach_init : reachable db (init db)
| reach_step s e s' : reachable db s -> step s e s' -> reachable db s'.

(** Running a list of handlers one after the other. *)
Fixpoint ticks (self : SensorApp) (inputs : list (Q * Q * Q))
  : result SensorApp :=
  match inputs with
  | [] => Ok self
  | (jh, jt, now) :: rest =>
      self' <- _batch_read_tick self jh jt now ;;
      ticks self' rest
  end.

(** Several events handled in sequence. *)
Inductive run : SensorApp -> list event -> SensorApp -> Prop :=
| run_nil s : run s [] s
| run_cons s e s1 es s2 : step s e s1 -> run s1 es s2 -> run s (e :: es) s2.

Definition timeout_of (input : Q * Q * Q) : event :=
  let '(jh, jt, now) := input in Timeout jh jt now.

(** ** Vocabulary of the properties *)

(** [a] may stand before [b] in a result ordered by [ts DESC]. *)
Definition desc (a b : row) : Prop := (row_ts b <= row_ts a)%Q.

(** A list is an answer to [ORDER BY ts DESC] over [rows] when it holds the
    same rows, newest first; rows of equal [ts] may come in any order. *)
Definition ordered_answer (rows answer : list row) : Prop :=
  Permutation answer rows /\ StronglySorted desc answer.

(** The ranges of the data model: humidity in [0, 100], temperature in
    [-20, 100]. *)
Definition in_range (r : row) : Prop :=
  (0 <= row_humidity r <= 100)%Q /\ (-20 <= row_temperature r <= 100)%Q.

(** What one sample / store / display / alarm cycle leaves behind, from the
    state [self] to the state [s'], for the pair [(h, t)] drawn at [now]. *)
Definition cycle_effect (self s' : SensorApp) (h t now : Q) : Prop :=
  conn s' = conn self ++ [(now, h, t)] /\
  h_label s' = HumidityText h /\
  t_label s' = TemperatureText t /\
  ts_label s' = LastReadingAt now /\
  h_bar s' = bar_setValue 0 100 (h_bar self)
               (py_max_int 0 (py_min_int (py_int h) 100)) /\
  t_bar s' = bar_setValue (-20) 100 (t_bar self)
               (py_max_int (-20) (py_min_int (py_int t) 100)) /\
  alarm_label s' = alarm_label (_set_alarm_state self (alarm self h t)) /\
  h_alarm s' = h_alarm self /\
  t_alarm s' = t_alarm self.

(** The batch invariant, as one handler preserves it. *)
Definition batch_inv (s : SensorApp) : Prop :=
  (batch_timer s = true <-> 0 < batch_remaining s) /\
  0 <= batch_remaining s <= 10.

(** Consecutive calls of [generate_values], one pair of jitters per call:
    the pairs returned, in order, and the sensor after the last call. *)
Fixpoint generate_many (self : PseudoSensor.t) (jitters : list (Q * Q))
  : result (list (Q * Q) * PseudoSensor.t) :=
  match jitters with
  | [] => Ok ([], self)
  | (jh, jt) :: rest =>
      '(h, t, self1) <- PseudoSensor.generate_values self jh jt ;;
      '(out, self2) <- generate_many self1 rest ;;
      Ok ((h, t) :: out, self2)
  end.

(** The handlers that take a sample: a click on "Read 1" and a timeout of
    the batch timer. *)
Definition is_sample (e : event) : bool :=
  match e with
  | ClickReadOne _ _ _ | Timeout _ _ _ => true
  | _ => false
  end.

Definition samples (es : list event) : nat :=
  List.length (filter is_sample es).

(** What the display shows for the row [r]: its three values on the labels
    and the two readings, truncated, on the bars. *)
Definition displays (s : SensorApp) (r : row) : Prop :=
  h_label s = HumidityText (row_humidity r) /\
  t_label s = TemperatureText (row_temperature r) /\
  ts_label s = LastReadingAt (row_ts r) /\
  h_bar s = py_int (row_humidity r) /\
  t_bar s = py_int (row_temperature r).

(** [a] may stand before [b] in a list ordered oldest first. *)
Definition asc (a b : row) : Prop := (row_ts a <= row_ts b)%Q.

(** * Properties *)

(** Case analysis on the sample drawn by a handler. *)
Ltac step_handler H :=
  match type of H with
  | context [PseudoSensor.generate_values ?s ?jh ?jt] =>
      let G := fresh "Hgen" in
      destruct (PseudoSensor.generate_values s jh jt)
        as [[[?h ?t] ?sensor'] | ?e] eqn:G;
      cbn [bind] in H; [| discriminate H]
  end.

(** ** Comparisons, [min], [max] *)

Lemma Qltb_lt (x y : Q) : Qltb x y = true <-> (x < y)%Q.
Proof.
  unfold Qltb. rewrite negb_true_iff, <- not_true_iff_false, Qle_bool_iff.
  split; [apply Qnot_le_lt | apply Qlt_not_le].
Qed.

Lemma Qltb_ge (x y : Q) : Qltb x y = false <-> (y <= x)%Q.
Proof.
  unfold Qltb. rewrite negb_false_iff. apply Qle_bool_iff.
Qed.

Lemma Qltb_irrefl (x : Q) : Qltb x x = false.
Proof. apply Qltb_ge, Qle_refl. Qed.

(** [max(lo, min(x, hi))] lies between [lo] and [hi], whatever [x] is. *)
Lemma clamp_bounds (lo hi x : Q) :
  (lo <= hi)%Q -> (lo <= py_max lo (py_min x hi) <= hi)%Q.
Proof.
  intros Hlh. unfold py_max, py_min.
  destruct (Qltb hi x) eqn:Hx.
  - destruct (Qltb lo hi) eqn:Hl.
    + split; [exact Hlh | apply Qle_refl].
    + split; [apply Qle_refl | exact Hlh].
  - apply Qltb_ge in Hx.
    destruct (Qltb lo x) eqn:Hl.
    + apply Qltb_lt in Hl. split; [apply Qlt_le_weak, Hl | exact Hx].
    + split; [apply Qle_refl | exact Hlh].
Qed.

(** ** Indexing *)

Lemma getitem_in_range {A : Type} (l : list A) (i : Z) :
  0 <= i < len l -> exists a, getitem l i = Ok a.
Proof.
  intros [Hlo Hhi]. unfold getitem.
  destruct (i <? 0) eqn:Hneg; [apply Z.ltb_lt in Hneg; lia |].
  rewrite Hneg.
  destruct (nth_error l (Z.to_nat i)) as [a |] eqn:Hnth.
  - exists a. reflexivity.
  - apply nth_error_None in Hnth. unfold len in Hhi. lia.
Qed.

(** ** The generator *)

Section Generator.

Import PseudoSensor.

(** Whenever [generate_values] returns, its pair is clamped. *)
Lemma generate_values_clamped self jh jt h t self' :
  generate_values self jh jt = Ok (h, t, self') ->
  (0 <= h <= 100)%Q /\ (-20 <= t <= 100)%Q.
Proof.
  unfold generate_values, bind.
  destruct (getitem h_range (h_index self)) as [hb | e]; [| discriminate].
  destruct (getitem t_range (t_index self)) as [tb | e]; [| discriminate].
  intros H. injection H as Hh Ht _. subst h t.
  split; apply clamp_bounds; discriminate.
Qed.

(** On valid indices [generate_values] returns, and the indices stay
    valid: each advances by one modulo the number of bands. *)
Lemma generate_values_returns self jh jt :
  valid self ->
  exists h t self',
    generate_values self jh jt = Ok (h, t, self') /\
    h_index self' = (h_index self + 1) mod 15 /\
    t_index self' = (t_index self + 1) mod 15 /\
    valid self'.
Proof.
  intros [Hh Ht]. unfold generate_values, bind.
  destruct (getitem_in_range h_range (h_index self) Hh) as [hb ->].
  destruct (getitem_in_range t_range (t_index self) Ht) as [tb ->].
  do 3 eexists. split; [reflexivity |]. cbn [h_index t_index].
  change (len h_range) with 15. change (len t_range) with 15.
  repeat split; try apply Z.mod_pos_bound; lia.
Qed.

Lemma init_valid : valid init.
Proof. unfold valid, init; cbn. lia. Qed.

End Generator.

(** C4: from every sensor state whose two indices are band indices, and for
    every pair of jitter outcomes, one call of [generate_values] returns a
    humidity in [0, 100] and a temperature in [-20, 100]. *)
Theorem generate_values_in_range (self : PseudoSensor.t) (jh jt : Q) :
  PseudoSensor.valid self ->
  exists h t self',
    PseudoSensor.generate_values self jh jt = Ok (h, t, self') /\
    (0 <= h <= 100)%Q /\ (-20 <= t <= 100)%Q.
Proof.
  intros Hv.
  destruct (generate_values_returns self jh jt Hv) as (h & t & self' & Hg & _).
  exists h, t, self'. split; [exact Hg |].
  exact (generate_values_clamped _ _ _ _ _ _ Hg).
Qed.

Lemma generate_values_in_range_witness :
  PseudoSensor.valid (PseudoSensor.mk 9 9 (0 # 1) (0 # 1)) /\
  exists h t self',
    PseudoSensor.generate_values (PseudoSensor.mk 9 9 (0 # 1) (0 # 1))
      (21 # 2) (9 # 2) = Ok (h, t, self') /\
    (0 <= h <= 100)%Q /\ (-20 <= t <= 100)%Q.
Proof.
  assert (Hv : PseudoSensor.valid (PseudoSensor.mk 9 9 (0 # 1) (0 # 1))).
  { unfold PseudoSensor.valid; cbn; lia. }
  split; [exact Hv |].
  exact (generate_values_in_range _ (21 # 2) (9 # 2) Hv).
Defined.

(** ** The alarm rule *)

Lemma alarm_label_set_alarm_state self b :
  ind_text (alarm_label (_set_alarm_state self b)) =
  if b then "ALARM!"%string else "No alarms"%string.
Proof. destruct b; reflexivity. Qed.

Lemma alarm_iff self h t :
  alarm self h t = true <-> (h_alarm self < h)%Q \/ (t_alarm self < t)%Q.
Proof.
  unfold alarm. rewrite orb_true_iff, !Qltb_lt. reflexivity.
Qed.

Lemma Qltb_eq_l (x x' y : Q) : (x == x')%Q -> Qltb x y = Qltb x' y.
Proof. intros E. unfold Qltb. rewrite E. reflexivity. Qed.

Lemma Qltb_eq_r (x y y' : Q) : (y == y')%Q -> Qltb x y = Qltb x y'.
Proof. intros E. unfold Qltb. rewrite E. reflexivity. Qed.

(** C3: the alarm computed by [_check_alarms] is true exactly when the
    humidity exceeds the humidity threshold or the temperature exceeds the
    temperature threshold, and the indicator shows it; a humidity equal to
    its threshold leaves the decision to the temperature alone (and
    conversely), so two values equal to their thresholds raise no alarm. *)
Theorem check_alarms_rule (self : SensorApp) (h t : Q) :
  (alarm self h t = true <->
     (h > h_alarm self)%Q \/ (t > t_alarm self)%Q) /\
  ind_text (alarm_label (_check_alarms self h t)) =
    (if alarm self h t then "ALARM!" else "No alarms")%string /\
  ((h == h_alarm self)%Q -> alarm self h t = Qltb (t_alarm self) t) /\
  ((t == t_alarm self)%Q -> alarm self h t = Qltb (h_alarm self) h) /\
  ((h == h_alarm self)%Q -> (t == t_alarm self)%Q -> alarm self h t = false).
Proof.
  split; [apply alarm_iff |].
  split; [apply alarm_label_set_alarm_state |].
  unfold alarm. repeat split.
  - intros E. rewrite (Qltb_eq_r _ _ _ E), Qltb_irrefl. reflexivity.
  - intros E. rewrite (Qltb_eq_r _ _ _ E), Qltb_irrefl. apply orb_false_r.
  - intros Eh Et.
    rewrite (Qltb_eq_r _ _ _ Eh), (Qltb_eq_r _ _ _ Et), !Qltb_irrefl.
    reflexivity.
Qed.

(** With the default thresholds 85 and 90, the reading (85, 90) raises no
    alarm. *)
Lemma check_alarms_rule_witness :
  (170 # 2 == h_alarm (init []))%Q /\ (90 # 1 == t_alarm (init []))%Q /\
  alarm (init []) (170 # 2) (90 # 1) = false.
Proof.
  assert (Eh : (170 # 2 == h_alarm (init []))%Q) by reflexivity.
  assert (Et : (90 # 1 == t_alarm (init []))%Q) by reflexivity.
  split; [exact Eh | split; [exact Et |]].
  exact (proj2 (proj2 (proj2 (proj2
           (check_alarms_rule (init []) (170 # 2) (90 # 1))))) Eh Et).
Defined.

(** ** The reading store *)

Section Store.

Lemma insert_desc_perm r l : Permutation (insert_desc r l) (r :: l).
Proof.
  induction l as [| y l IH]; cbn; [reflexivity |].
  destruct (Qle_bool (row_ts y) (row_ts r)); [reflexivity |].
  rewrite IH. apply perm_swap.
Qed.

Lemma order_by_ts_desc_perm rows : Permutation (order_by_ts_desc rows) rows.
Proof.
  induction rows as [| r rows IH]; cbn; [constructor |].
  rewrite insert_desc_perm. constructor. exact IH.
Qed.

Lemma insert_desc_sorted r l :
  StronglySorted desc l -> StronglySorted desc (insert_desc r l).
Proof.
  induction 1 as [| y l Hs IH Hy]; cbn.
  - repeat constructor.
  - destruct (Qle_bool (row_ts y) (row_ts r)) eqn:E.
    + apply Qle_bool_iff in E.
      constructor; [constructor; assumption |].
      constructor; [exact E |].
      eapply Forall_impl; [| exact Hy].
      intros z Hz. unfold desc in *. eapply Qle_trans; eassumption.
    + assert (Hry : desc y r).
      { unfold desc. apply Qlt_le_weak, Qltb_lt. unfold Qltb.
        rewrite E. reflexivity. }
      constructor; [exact IH |].
      eapply Permutation_Forall;
        [symmetry; apply insert_desc_perm |].
      constructor; assumption.
Qed.

Lemma order_by_ts_desc_sorted rows :
  StronglySorted desc (order_by_ts_desc rows).
Proof.
  induction rows as [| r rows IH]; cbn; [constructor |].
  apply insert_desc_sorted, IH.
Qed.

(** The sort of the model is one of the answers SQL allows. *)
Lemma order_by_ts_desc_answer rows :
  ordered_answer rows (order_by_ts_desc rows).
Proof.
  split; [apply order_by_ts_desc_perm | apply order_by_ts_desc_sorted].
Qed.

Lemma In_firstn (k : nat) (l : list row) (z : row) :
  In z (firstn k l) -> In z l.
Proof.
  intros Hz. rewrite <- (firstn_skipn k l). apply in_or_app. left. exact Hz.
Qed.

Lemma firstn_sorted (k : nat) (l : list row) :
  StronglySorted desc l -> StronglySorted desc (firstn k l).
Proof.
  intros Hs. revert k.
  induction Hs as [| y l Hs IH Hy]; intros [| k]; cbn; try constructor.
  - apply IH.
  - rewrite Forall_forall in *. intros z Hz.
    apply Hy. eapply In_firstn; eassumption.
Qed.

Lemma limit_sorted n l :
  StronglySorted desc l -> StronglySorted desc (limit n l).
Proof.
  intros Hs. unfold limit. destruct (n <? 0); [exact Hs |].
  apply firstn_sorted, Hs.
Qed.

Lemma limit_length n l :
  0 <= n -> len (limit n l) = Z.min n (len l).
Proof.
  intros Hn. unfold limit, len.
  destruct (n <? 0) eqn:E; [apply Z.ltb_lt in E; lia |].
  rewrite length_firstn. lia.
Qed.

Lemma limit_incl n l : incl (limit n l) l.
Proof.
  unfold limit. destruct (n <? 0); [apply incl_refl |].
  intros z Hz. eapply In_firstn; eassumption.
Qed.

Lemma sqlite_int64_in_range n :
  - 2 ^ 63 <= n <= 2 ^ 63 - 1 -> sqlite_int64 n = Ok n.
Proof.
  intros [Hlo Hhi]. unfold sqlite_int64.
  apply Z.leb_le in Hlo, Hhi. rewrite Hlo, Hhi. reflexivity.
Qed.

Lemma sqlite_int64_nonneg n :
  0 <= n <= 2 ^ 63 - 1 -> sqlite_int64 n = Ok n.
Proof.
  intros Hn. apply sqlite_int64_in_range.
  assert (0 < 2 ^ 63) by reflexivity. lia.
Qed.

(** Whatever order SQL picks among equal timestamps, a row strictly newer
    than all the others comes first. *)
Lemma newest_first_in_any_answer rows r answer :
  Forall (fun x => (row_ts x < row_ts r)%Q) rows ->
  ordered_answer (rows ++ [r]) answer ->
  exists rest, answer = r :: rest.
Proof.
  intros Hnew [Hperm Hsorted].
  destruct answer as [| a rest].
  - apply Permutation_nil in Hperm. destruct rows; discriminate.
  - exists rest. f_equal.
    assert (Ha : In a (rows ++ [r])).
    { eapply Permutation_in; [exact Hperm | left; reflexivity]. }
    apply in_app_or in Ha. destruct Ha as [Ha | [Ha | []]]; [| auto].
    exfalso.
    rewrite Forall_forall in Hnew. specialize (Hnew a Ha).
    assert (Hr : In r (a :: rest)).
    { eapply Permutation_in; [symmetry; exact Hperm |].
      apply in_or_app. right. left. reflexivity. }
    destruct Hr as [-> | Hr]; [exact (Qlt_irrefl _ Hnew) |].
    inversion Hsorted as [| ? ? _ Hall]; subst.
    rewrite Forall_forall in Hall. specialize (Hall r Hr).
    unfold desc in Hall. exact (Qlt_not_le _ _ Hnew Hall).
Qed.

End Store.

(** C2 (as amended): for every [n] from 0 up to the largest SQLite integer
    and every store content, [_fetch_last_n(n)] returns rows of the store,
    at most [n] of them (as many as the store has, if fewer), ordered
    descending by timestamp; on an empty store it returns the empty list. *)
Theorem fetch_last_n_bounded_sorted (self : SensorApp) (n : Z) :
  0 <= n <= 2 ^ 63 - 1 ->
  exists rows,
    _fetch_last_n self n = Ok rows /\
    len rows <= n /\
    len rows = Z.min n (len (conn self)) /\
    StronglySorted desc rows /\
    incl rows (conn self) /\
    (conn self = [] -> rows = []).
Proof.
  intros Hn. unfold _fetch_last_n.
  rewrite sqlite_int64_nonneg by exact Hn. cbn [bind].
  eexists. split; [reflexivity |].
  assert (Hlen : len (limit n (order_by_ts_desc (conn self)))
                 = Z.min n (len (conn self))).
  { rewrite limit_length by lia. unfold len.
    rewrite (Permutation_length (order_by_ts_desc_perm (conn self))).
    reflexivity. }
  repeat split.
  - lia.
  - exact Hlen.
  - apply limit_sorted, order_by_ts_desc_sorted.
  - intros z Hz. apply limit_incl in Hz.
    eapply Permutation_in; [apply order_by_ts_desc_perm | exact Hz].
  - intros E. rewrite E in Hlen |- *.
    destruct (limit n (order_by_ts_desc [])); [reflexivity |].
    exfalso. unfold len in Hlen. cbn [List.length] in Hlen. lia.
Qed.

Lemma fetch_last_n_bounded_sorted_witness :
  0 <= 2 <= 2 ^ 63 - 1 /\
  exists rows,
    _fetch_last_n
      (init [(5 # 1, 40 # 1, 70 # 1); (9 # 1, 41 # 1, 71 # 1);
             (7 # 1, 42 # 1, 72 # 1)]) 2 = Ok rows /\
    len rows <= 2 /\
    len rows = Z.min 2 (len (conn (init [(5 # 1, 40 # 1, 70 # 1);
                                         (9 # 1, 41 # 1, 71 # 1);
                                         (7 # 1, 42 # 1, 72 # 1)]))) /\
    StronglySorted desc rows /\
    incl rows (conn (init [(5 # 1, 40 # 1, 70 # 1); (9 # 1, 41 # 1, 71 # 1);
                           (7 # 1, 42 # 1, 72 # 1)])) /\
    (conn (init [(5 # 1, 40 # 1, 70 # 1); (9 # 1, 41 # 1, 71 # 1);
                 (7 # 1, 42 # 1, 72 # 1)]) = [] -> rows = []).
Proof.
  assert (Hn : 0 <= 2 <= 2 ^ 63 - 1) by (vm_compute; intuition discriminate).
  split; [exact Hn |].
  exact (fetch_last_n_bounded_sorted _ 2 Hn).
Defined.

(** C2 as stated fails on a negative [n]: [LIMIT -1] returns every row, so
    one stored row is already more than [n]; and an [n] beyond the SQLite
    integers raises even on an empty store. *)
Lemma fetch_last_n_negative_limit_counterexample :
  _fetch_last_n (init [(1 # 1, 50 # 1, 70 # 1)]) (-1)
    = Ok [(1 # 1, 50 # 1, 70 # 1)] /\
  ~ (exists rows,
       _fetch_last_n (init [(1 # 1, 50 # 1, 70 # 1)]) (-1) = Ok rows /\
       len rows <= -1) /\
  _fetch_last_n (init []) (2 ^ 63) = Raise OverflowError.
Proof.
  split; [reflexivity |]. split; [| reflexivity].
  intros (rows & Hf & Hlen).
  vm_compute in Hf. injection Hf as <-. vm_compute in Hlen. apply Hlen.
  reflexivity.
Qed.

(** The timestamp [_insert_reading] stores. *)
Lemma insert_reading_spec self now h t ts :
  _insert_reading self now h t ts =
  (match ts with None => now | Some v => v end,
   set_conn self
     (conn self ++ [(match ts with None => now | Some v => v end, h, t)])).
Proof. reflexivity. Qed.

Lemma order_by_ts_desc_newest rows r :
  Forall (fun x => (row_ts x < row_ts r)%Q) rows ->
  order_by_ts_desc (rows ++ [r]) = r :: order_by_ts_desc rows.
Proof.
  induction 1 as [| x rows Hx _ IH]; [reflexivity |].
  change (order_by_ts_desc ((x :: rows) ++ [r]))
    with (insert_desc x (order_by_ts_desc (rows ++ [r]))).
  change (order_by_ts_desc (x :: rows))
    with (insert_desc x (order_by_ts_desc rows)).
  rewrite IH. cbn [insert_desc].
  apply Qltb_lt in Hx. unfold Qltb in Hx. apply negb_true_iff in Hx.
  rewrite Hx. reflexivity.
Qed.

(** C1 (as amended): for every humidity/temperature pair, if the timestamp
    recorded by [_insert_reading] is later than every timestamp already in
    the store, then [_fetch_last_n(1)] after the insert returns exactly one
    row: the timestamp returned by the insert, and the inserted humidity
    and temperature. *)
Theorem insert_then_fetch_last (self : SensorApp) (now h t : Q)
        (ts : option Q) :
  Forall (fun r => (row_ts r < fst (_insert_reading self now h t ts))%Q)
         (conn self) ->
  fst (_insert_reading self now h t ts)
    = match ts with None => now | Some v => v end /\
  _fetch_last_n (snd (_insert_reading self now h t ts)) 1
    = Ok [(fst (_insert_reading self now h t ts), h, t)].
Proof.
  rewrite insert_reading_spec. cbn [fst snd]. intros Hnew.
  split; [reflexivity |].
  unfold _fetch_last_n. change (sqlite_int64 1) with (Ok 1). cbn [bind].
  f_equal. cbn [conn set_conn].
  rewrite order_by_ts_desc_newest by exact Hnew. reflexivity.
Qed.

Lemma insert_then_fetch_last_witness :
  Forall (fun r => (row_ts r <
            fst (_insert_reading (init [(5 # 1, 40 # 1, 70 # 1)])
                   (8 # 1) (55 # 1) (66 # 1) None))%Q)
         (conn (init [(5 # 1, 40 # 1, 70 # 1)])) /\
  _fetch_last_n
    (snd (_insert_reading (init [(5 # 1, 40 # 1, 70 # 1)])
            (8 # 1) (55 # 1) (66 # 1) None)) 1
    = Ok [(8 # 1, 55 # 1, 66 # 1)].
Proof.
  assert (H : Forall (fun r => (row_ts r <
            fst (_insert_reading (init [(5 # 1, 40 # 1, 70 # 1)])
                   (8 # 1) (55 # 1) (66 # 1) None))%Q)
         (conn (init [(5 # 1, 40 # 1, 70 # 1)]))).
  { repeat constructor. }
  split; [exact H |].
  exact (proj2 (insert_then_fetch_last _ (8 # 1) (55 # 1) (66 # 1) None H)).
Defined.

(** C1 as stated fails when the store already holds a later timestamp (a
    clock set back between two runs, or a timestamp supplied by the
    caller): the older insert is not the row fetched. *)
Lemma insert_then_fetch_last_counterexample :
  _fetch_last_n
    (snd (_insert_reading (init [(100 # 1, 1 # 1, 1 # 1)])
            (50 # 1) (2 # 1) (2 # 1) None)) 1
    = Ok [(100 # 1, 1 # 1, 1 # 1)] /\
  _fetch_last_n
    (snd (_insert_reading (init [(100 # 1, 1 # 1, 1 # 1)])
            (50 # 1) (2 # 1) (2 # 1) None)) 1
    <> Ok [(fst (_insert_reading (init [(100 # 1, 1 # 1, 1 # 1)])
                   (50 # 1) (2 # 1) (2 # 1) None), 2 # 1, 2 # 1)].
Proof.
  split; [reflexivity | discriminate].
Qed.

(** ** The sampling controller *)

Lemma set_alarm_state_frame self b :
  let s' := _set_alarm_state self b in
  sensor s' = sensor self /\ conn s' = conn self /\
  h_label s' = h_label self /\ t_label s' = t_label self /\
  ts_label s' = ts_label self /\ h_bar s' = h_bar self /\
  t_bar s' = t_bar self /\ h_alarm s' = h_alarm self /\
  t_alarm s' = t_alarm self /\ status_label s' = status_label self /\
  btn_read_one s' = btn_read_one self /\ btn_read_ten s' = btn_read_ten self /\
  batch_timer s' = batch_timer self /\
  batch_remaining s' = batch_remaining self.
Proof. destruct b; cbn; repeat split. Qed.

(** [read_one]: what it returns when the sensor returns. *)
Lemma read_one_effect self jh jt now s' :
  read_one self jh jt now = Ok s' ->
  exists h t sensor',
    PseudoSensor.generate_values (sensor self) jh jt = Ok (h, t, sensor') /\
    sensor s' = sensor' /\
    cycle_effect self s' h t now /\
    status_label s' = Lit "Read 1: done." /\
    btn_read_one s' = btn_read_one self /\
    btn_read_ten s' = btn_read_ten self /\
    batch_timer s' = batch_timer self /\
    batch_remaining s' = batch_remaining self.
Proof.
  unfold read_one. intros H. step_handler H.
  injection H as <-. exists h, t, sensor'.
  split; [reflexivity |].
  unfold cycle_effect, _update_latest_display, _check_alarms, alarm.
  cbn [_insert_reading].
  destruct (Qltb _ h || Qltb _ t); cbn; repeat split.
Qed.

(** [_batch_read_tick]: what it returns when the sensor returns. *)
Lemma batch_read_tick_effect self jh jt now s' :
  _batch_read_tick self jh jt now = Ok s' ->
  exists h t sensor',
    PseudoSensor.generate_values (sensor self) jh jt = Ok (h, t, sensor') /\
    sensor s' = sensor' /\
    cycle_effect self s' h t now /\
    batch_remaining s' = batch_remaining self - 1 /\
    (batch_remaining self - 1 <= 0 ->
       batch_timer s' = false /\ btn_read_one s' = true /\
       btn_read_ten s' = true /\
       status_label s' = Lit "Read 10: complete.") /\
    (0 < batch_remaining self - 1 ->
       batch_timer s' = batch_timer self /\
       btn_read_one s' = btn_read_one self /\
       btn_read_ten s' = btn_read_ten self /\
       status_label s' = BatchRemaining (batch_remaining self - 1)).
Proof.
  unfold _batch_read_tick. intros H. step_handler H.
  exists h, t, sensor'. split; [reflexivity |].
  unfold cycle_effect, _update_latest_display, _check_alarms, alarm in *.
  cbn [_insert_reading] in H.
  destruct (Qltb _ h || Qltb _ t); cbn in H;
    destruct (batch_remaining self - 1 <=? 0) eqn:E;
    injection H as <-; cbn;
    (apply Z.leb_le in E || apply Z.leb_gt in E);
    repeat split; lia.
Qed.

(** *** Invariants of the event loop *)

Lemma step_sensor_valid s e s' :
  step s e s' -> PseudoSensor.valid (sensor s) -> PseudoSensor.valid (sensor s').
Proof.
  intros Hstep Hv. inversion Hstep; subst; try assumption.
  - apply read_one_effect in H as (h & t & sn & Hg & <- & _).
    destruct (generate_values_returns (sensor s) jh jt Hv)
      as (h' & t' & sn' & Hg' & _ & _ & Hv').
    congruence.
  - unfold read_ten. destruct (batch_timer s); assumption.
  - apply batch_read_tick_effect in H0 as (h & t & sn & Hg & <- & _).
    destruct (generate_values_returns (sensor s) jh jt Hv)
      as (h' & t' & sn' & Hg' & _ & _ & Hv').
    congruence.
Qed.

Lemma init_sensor db : sensor (init db) = PseudoSensor.init.
Proof. reflexivity. Qed.

Lemma reachable_sensor_valid db s :
  reachable db s -> PseudoSensor.valid (sensor s).
Proof.
  induction 1 as [| s e s' _ IH Hstep].
  - rewrite init_sensor. apply init_valid.
  - eapply step_sensor_valid; eassumption.
Qed.

Lemma step_batch_inv s e s' : step s e s' -> batch_inv s -> batch_inv s'.
Proof.
  unfold batch_inv. intros Hstep [Hiff Hrng].
  inversion Hstep; subst; try (split; assumption).
  - apply read_one_effect in H
      as (h & t & sn & _ & _ & _ & _ & _ & _ & Et & Er).
    rewrite Et, Er. split; assumption.
  - unfold read_ten. destruct (batch_timer s) eqn:E.
    + rewrite E. split; assumption.
    + cbn. split; [| lia]. split; [lia | reflexivity].
  - apply batch_read_tick_effect in H0
      as (h & t & sn & _ & _ & _ & Er & Hdone & Hmore).
    assert (Hpos : 0 < batch_remaining s) by (apply Hiff; assumption).
    rewrite Er.
    destruct (Z.eq_dec (batch_remaining s) 1) as [E1 | E1].
    + destruct Hdone as (Et & _); [lia |]. rewrite Et.
      split; [| lia]. split; [discriminate | lia].
    + destruct Hmore as (Et & _); [lia |]. rewrite Et, H.
      split; [| lia]. split; [lia | reflexivity].
Qed.

Lemma init_batch_inv db : batch_inv (init db).
Proof.
  unfold batch_inv. cbn. split; [| lia]. split; [discriminate | lia].
Qed.

(** C9: in every state at which the event loop is idle, the batch timer is
    active exactly when [batch_remaining] is positive, and
    [batch_remaining] is never negative (it stays within 0 .. 10). *)
Theorem timer_active_iff_remaining (db : list row) (s : SensorApp) :
  reachable db s ->
  (batch_timer s = true <-> 0 < batch_remaining s) /\
  0 <= batch_remaining s <= 10.
Proof.
  induction 1 as [| s e s' _ IH Hstep].
  - apply init_batch_inv.
  - exact (step_batch_inv _ _ _ Hstep IH).
Qed.

Lemma timer_active_iff_remaining_witness :
  reachable [] (read_ten (init [])) /\
  (batch_timer (read_ten (init [])) = true <->
     0 < batch_remaining (read_ten (init []))) /\
  0 <= batch_remaining (read_ten (init [])) <= 10.
Proof.
  assert (H : reachable [] (read_ten (init []))).
  { eapply reach_step; [apply reach_init | apply step_read_ten]. }
  split; [exact H |].
  exact (timer_active_iff_remaining [] _ H).
Defined.

Lemma step_conn s e s' :
  step s e s' ->
  PseudoSensor.valid (sensor s) ->
  conn s' = conn s \/ exists r, conn s' = conn s ++ [r] /\ in_range r.
Proof.
  intros Hstep Hv. inversion Hstep; subst; try (left; reflexivity).
  - apply read_one_effect in H as (h & t & sn & Hg & _ & Hc & _).
    right. exists (now, h, t). split; [apply Hc |].
    exact (generate_values_clamped _ _ _ _ _ _ Hg).
  - left. unfold read_ten. destruct (batch_timer s); reflexivity.
  - apply batch_read_tick_effect in H0 as (h & t & sn & Hg & _ & Hc & _).
    right. exists (now, h, t). split; [apply Hc |].
    exact (generate_values_clamped _ _ _ _ _ _ Hg).
Qed.

(** C5: in every reachable state the store holds the rows [db] it was
    opened with, followed by the readings persisted since ([read_one] and
    batch ticks are the only handlers that add rows), and each of these has
    its humidity in [0, 100] and its temperature in [-20, 100].  The range
    comes from the generator: [_insert_reading] appends whatever pair it is
    given. *)
Theorem persisted_readings_in_range (db : list row) (s : SensorApp) :
  reachable db s ->
  (exists persisted, conn s = db ++ persisted /\ Forall in_range persisted) /\
  (forall now h t ts,
     conn (snd (_insert_reading s now h t ts))
     = conn s ++ [(fst (_insert_reading s now h t ts), h, t)]).
Proof.
  intros Hr. split; [| reflexivity].
  induction Hr as [| s e s' Hr (persisted & Hc & Hall) Hstep].
  - exists []. split; [symmetry; apply app_nil_r | constructor].
  - destruct (step_conn _ _ _ Hstep (reachable_sensor_valid _ _ Hr))
      as [E | (r & E & Hin)]; rewrite E, Hc.
    + exists persisted. split; [reflexivity | exact Hall].
    + exists (persisted ++ [r]). split; [symmetry; apply app_assoc |].
      apply Forall_app. split; [exact Hall |].
      constructor; [exact Hin | constructor].
Qed.

(** A first reading with jitters 10.5 and 4.5, at time 5: the row
    (5, 10, -15.5) is persisted. *)
Lemma persisted_readings_in_range_witness :
  exists s,
    read_one (init []) (21 # 2) (9 # 2) (5 # 1) = Ok s /\
    reachable [] s /\
    conn s = [(5 # 1, 21 # 2, -31 # 2)] /\
    exists persisted, conn s = [] ++ persisted /\ Forall in_range persisted.
Proof.
  eexists. split; [vm_compute; reflexivity |].
  match goal with
  | |- reachable [] ?s /\ _ =>
      assert (H : reachable [] s)
        by (eapply reach_step;
            [apply reach_init
            | apply (step_read_one (init []) (21 # 2) (9 # 2) (5 # 1));
              vm_compute; reflexivity])
  end.
  split; [exact H |]. split; [reflexivity |].
  exact (proj1 (persisted_readings_in_range [] _ H)).
Defined.

(** *** Single reads *)

Lemma bar_setValue_clamped (lo hi cur v : Z) :
  lo <= hi ->
  bar_setValue lo hi cur (py_max_int lo (py_min_int v hi))
  = Z.max lo (Z.min v hi).
Proof.
  intros Hlh. unfold bar_setValue, py_max_int, py_min_int.
  destruct (hi <? v) eqn:E1;
    [apply Z.ltb_lt in E1 | apply Z.ltb_ge in E1];
    match goal with |- context [lo <? ?x] => destruct (lo <? x) eqn:E2 end;
    (apply Z.ltb_lt in E2 || apply Z.ltb_ge in E2);
    match goal with
    | |- (if ?c then _ else _) = _ => destruct c eqn:E3
    end;
    try lia;
    apply orb_true_iff in E3;
    destruct E3 as [E3 | E3]; apply Z.ltb_lt in E3; lia.
Qed.

Lemma cycle_alarm_text self s' h t now :
  cycle_effect self s' h t now ->
  (ind_text (alarm_label s') = "ALARM!"%string <->
     (h_alarm self < h)%Q \/ (t_alarm self < t)%Q) /\
  (ind_text (alarm_label s') = "No alarms"%string <->
     (h <= h_alarm self)%Q /\ (t <= t_alarm self)%Q).
Proof.
  intros (_ & _ & _ & _ & _ & _ & Ea & _). rewrite Ea.
  rewrite alarm_label_set_alarm_state. rewrite <- alarm_iff.
  unfold alarm.
  destruct (Qltb (h_alarm self) h) eqn:E1;
    destruct (Qltb (t_alarm self) t) eqn:E2; cbn [orb];
    (apply Qltb_lt in E1 || apply Qltb_ge in E1);
    (apply Qltb_lt in E2 || apply Qltb_ge in E2);
    split; split; try reflexivity; try discriminate; try (split; assumption);
    intros [H1 H2]; exfalso;
    first [exact (Qlt_not_le _ _ E1 H1) | exact (Qlt_not_le _ _ E2 H2)].
Qed.

Lemma alarm_label_set_alarm_state_full self b :
  alarm_label (_set_alarm_state self b) =
  if b then
    mk_indicator "ALARM!"
      "color: white; background:#c62828; padding:4px 8px; font-weight:700;"
  else
    mk_indicator "No alarms"
      "color: #2e7d32; background:#e8f5e9; padding:4px 8px; font-weight:600;".
Proof. destruct b; reflexivity. Qed.

Lemma read_one_returns self jh jt now :
  PseudoSensor.valid (sensor self) ->
  exists s', read_one self jh jt now = Ok s'.
Proof.
  intros Hv.
  destruct (generate_values_returns (sensor self) jh jt Hv)
    as (h & t & sn & Hg & _).
  unfold read_one. rewrite Hg. cbn [bind _insert_reading].
  eexists. reflexivity.
Qed.

(** C10: [read_one] has no guard on the batch state.  In any state, a
    running batch included, it performs the whole cycle: it draws one
    sample, appends exactly that one row, shows it on the labels and on the
    bars (the truncated readings, clamped to the bars' ranges), sets the
    alarm indicator to "ALARM!" when the reading exceeds a threshold and to
    "No alarms" when it does not, and reports "Read 1: done.".  It leaves
    [batch_remaining], the timer's activity and the buttons' enabled flags
    as they were. *)
Theorem read_one_no_batch_guard (self : SensorApp) (jh jt now : Q) :
  PseudoSensor.valid (sensor self) ->
  exists h t sensor' s',
    PseudoSensor.generate_values (sensor self) jh jt = Ok (h, t, sensor') /\
    read_one self jh jt now = Ok s' /\
    sensor s' = sensor' /\
    cycle_effect self s' h t now /\
    conn s' = conn self ++ [(now, h, t)] /\
    h_bar s' = Z.max 0 (Z.min (py_int h) 100) /\
    t_bar s' = Z.max (-20) (Z.min (py_int t) 100) /\
    alarm_label s' =
      (if Qltb (h_alarm self) h || Qltb (t_alarm self) t then
         mk_indicator "ALARM!"
           "color: white; background:#c62828; padding:4px 8px; font-weight:700;"
       else
         mk_indicator "No alarms"
           "color: #2e7d32; background:#e8f5e9; padding:4px 8px; font-weight:600;") /\
    (ind_text (alarm_label s') = "ALARM!"%string <->
       (h > h_alarm self)%Q \/ (t > t_alarm self)%Q) /\
    (ind_text (alarm_label s') = "No alarms"%string <->
       (h <= h_alarm self)%Q /\ (t <= t_alarm self)%Q) /\
    status_label s' = Lit "Read 1: done." /\
    btn_read_one s' = btn_read_one self /\
    btn_read_ten s' = btn_read_ten self /\
    batch_timer s' = batch_timer self /\
    batch_remaining s' = batch_remaining self.
Proof.
  intros Hv. destruct (read_one_returns self jh jt now Hv) as [s' Hs'].
  destruct (read_one_effect _ _ _ _ _ Hs')
    as (h & t & sn & Hg & Esn & Hcycle & Hrest).
  exists h, t, sn, s'. split; [exact Hg |]. split; [exact Hs' |].
  split; [exact Esn |]. split; [exact Hcycle |].
  pose proof (cycle_alarm_text _ _ _ _ _ Hcycle) as [Hon Hoff].
  destruct Hcycle as (Hc & _ & _ & _ & Eb1 & Eb2 & Ea & _).
  split; [exact Hc |].
  split; [rewrite Eb1; apply bar_setValue_clamped; lia |].
  split; [rewrite Eb2; apply bar_setValue_clamped; lia |].
  split; [rewrite Ea; apply alarm_label_set_alarm_state_full |].
  split; [exact Hon |]. split; [exact Hoff |]. exact Hrest.
Qed.

(** While a batch is running (timer active, 10 reads remaining) and the
    indicator shows "ALARM!", a single read of (1, -18) stores its row,
    shows it, clears the alarm and leaves the batch alone. *)
Lemma read_one_no_batch_guard_witness :
  PseudoSensor.valid
    (sensor (read_ten (_check_alarms (init []) (90 # 1) (95 # 1)))) /\
  batch_timer (read_ten (_check_alarms (init []) (90 # 1) (95 # 1))) = true /\
  ind_text (alarm_label (read_ten (_check_alarms (init []) (90 # 1) (95 # 1))))
    = "ALARM!"%string /\
  exists s',
    read_one (read_ten (_check_alarms (init []) (90 # 1) (95 # 1)))
      (1 # 1) (2 # 1) (7 # 1) = Ok s' /\
    conn s' = [(7 # 1, 1 # 1, -18 # 1)] /\
    h_bar s' = 1 /\
    t_bar s' = -18 /\
    ind_text (alarm_label s') = "No alarms"%string /\
    batch_timer s' = true /\
    batch_remaining s' = 10.
Proof.
  assert (Hv : PseudoSensor.valid
                 (sensor (read_ten
                            (_check_alarms (init []) (90 # 1) (95 # 1))))).
  { unfold PseudoSensor.valid; cbn; lia. }
  split; [exact Hv |]. split; [reflexivity |]. split; [reflexivity |].
  destruct (read_one_no_batch_guard
              (read_ten (_check_alarms (init []) (90 # 1) (95 # 1)))
              (1 # 1) (2 # 1) (7 # 1) Hv)
    as (h & t & sn & s' & Hg & Hs' & _ & _ & Hc & Eb1 & Eb2 & Ea & _ & _
        & _ & _ & _ & Ht & Hr).
  exists s'. split; [exact Hs' |].
  vm_compute in Hg. injection Hg as <- <- _.
  split; [exact Hc |]. split; [exact Eb1 |]. split; [exact Eb2 |].
  split; [rewrite Ea; reflexivity |].
  split; [exact Ht | exact Hr].
Defined.

(** *** Batches *)

(** C7: while a batch is running (timer active), [read_ten] returns at once
    and changes nothing: remaining count, timer, buttons, store and sensor
    are those of the state it was called in. *)
Theorem read_ten_while_running_is_noop (self : SensorApp) :
  batch_timer self = true -> read_ten self = self.
Proof.
  intros Hactive. unfold read_ten. rewrite Hactive. reflexivity.
Qed.

Lemma read_ten_while_running_is_noop_witness :
  batch_timer (read_ten (init [])) = true /\
  read_ten (read_ten (init [])) = read_ten (init []).
Proof.
  assert (H : batch_timer (read_ten (init [])) = true) by reflexivity.
  split; [exact H |].
  exact (read_ten_while_running_is_noop (read_ten (init [])) H).
Defined.

Lemma batch_read_tick_returns self jh jt now :
  PseudoSensor.valid (sensor self) ->
  exists s', _batch_read_tick self jh jt now = Ok s'.
Proof.
  intros Hv.
  destruct (generate_values_returns (sensor self) jh jt Hv)
    as (h & t & sn & Hg & _).
  unfold _batch_read_tick. rewrite Hg. cbn [bind _insert_reading].
  match goal with |- context [if ?c then _ else _] => destruct c end;
    eexists; reflexivity.
Qed.

(** A running batch with as many reads remaining as there are timeouts to
    come runs to completion, the timer staying active up to the last one. *)
Lemma batch_runs inputs :
  forall s,
    PseudoSensor.valid (sensor s) ->
    batch_timer s = true ->
    batch_remaining s = len inputs ->
    inputs <> [] ->
    exists s',
      run s (map timeout_of inputs) s' /\
      ticks s inputs = Ok s' /\
      batch_remaining s' = 0 /\
      batch_timer s' = false /\
      btn_read_one s' = true /\
      btn_read_ten s' = true /\
      status_label s' = Lit "Read 10: complete." /\
      exists new,
        List.length new = List.length inputs /\
        conn s' = conn s ++ new /\
        Forall in_range new.
Proof.
  induction inputs as [| [[jh jt] now] rest IH]; intros s Hv Ht Hr Hne;
    [contradiction |].
  destruct (batch_read_tick_returns s jh jt now Hv) as [s1 Hs1].
  assert (Hstep : step s (Timeout jh jt now) s1)
    by (apply step_timeout; assumption).
  pose proof (step_sensor_valid _ _ _ Hstep Hv) as Hv1.
  destruct (batch_read_tick_effect _ _ _ _ _ Hs1)
    as (h & t & sn & Hg & _ & (Hc & _) & Hr1 & Hdone & Hmore).
  pose proof (generate_values_clamped _ _ _ _ _ _ Hg) as Hin.
  assert (Hlen : batch_remaining s - 1 = len rest).
  { rewrite Hr. unfold len. cbn [List.length]. lia. }
  cbn [ticks map timeout_of]. rewrite Hs1. cbn [bind].
  destruct rest as [| i rest'].
  - destruct Hdone as (Et & Eb1 & Eb2 & Es);
      [rewrite Hlen; unfold len; cbn; lia |].
    exists s1. split; [econstructor; [exact Hstep | constructor] |].
    split; [reflexivity |].
    split; [rewrite Hr1, Hlen; reflexivity |].
    repeat (split; [assumption |]).
    exists [(now, h, t)]. split; [reflexivity |]. split; [exact Hc |].
    constructor; [exact Hin | constructor].
  - destruct Hmore as (Et & _);
      [rewrite Hlen; unfold len; cbn [List.length]; lia |].
    destruct (IH s1 Hv1) as (s' & Hrun & Hticks & E0 & Eoff & Eb1 & Eb2 & Es
                               & new & Hnl & Hnc & Hnr).
    + rewrite Et. exact Ht.
    + rewrite Hr1. exact Hlen.
    + discriminate.
    + exists s'. split; [econstructor; [exact Hstep | exact Hrun] |].
      split; [exact Hticks |].
      repeat (split; [assumption |]).
      exists ((now, h, t) :: new). split; [cbn; rewrite Hnl; reflexivity |].
      split.
      * rewrite Hnc, Hc, <- app_assoc. reflexivity.
      * constructor; assumption.
Qed.

(** C6: from a state with no batch running, [read_ten] followed by exactly
    ten timeouts of the batch timer (each delivered while the timer is
    active) ends with [batch_remaining = 0], the timer stopped, the
    "Read 1" and "Read 10" buttons enabled again, and exactly ten new rows
    appended to the store. *)
Theorem read_ten_batch_completes (s : SensorApp) (inputs : list (Q * Q * Q)) :
  batch_timer s = false ->
  PseudoSensor.valid (sensor s) ->
  List.length inputs = 10%nat ->
  batch_remaining (read_ten s) = 10 /\
  batch_timer (read_ten s) = true /\
  btn_read_one (read_ten s) = false /\
  btn_read_ten (read_ten s) = false /\
  exists s',
    run s (ClickReadTen :: map timeout_of inputs) s' /\
    ticks (read_ten s) inputs = Ok s' /\
    batch_remaining s' = 0 /\
    batch_timer s' = false /\
    btn_read_one s' = true /\
    btn_read_ten s' = true /\
    exists new,
      List.length new = 10%nat /\ conn s' = conn s ++ new.
Proof.
  intros Hidle Hv Hlen.
  assert (Hstart : read_ten s =
            set_batch_timer
              (set_btn_read_ten
                 (set_btn_read_one
                    (set_status_label (set_batch_remaining s 10)
                       (Lit "Starting 10 reads...")) false) false) true).
  { unfold read_ten. rewrite Hidle. reflexivity. }
  rewrite Hstart. cbn [batch_remaining batch_timer btn_read_one btn_read_ten
                       set_batch_timer set_btn_read_ten].
  repeat (split; [reflexivity |]).
  rewrite <- Hstart.
  destruct (batch_runs inputs (read_ten s))
    as (s' & Hrun & Hticks & E0 & Eoff & Eb1 & Eb2 & _ & new & Hnl & Hnc & _).
  - rewrite Hstart. exact Hv.
  - rewrite Hstart. reflexivity.
  - rewrite Hstart. unfold len. rewrite Hlen. reflexivity.
  - intros ->. discriminate.
  - exists s'. split; [econstructor; [apply step_read_ten | exact Hrun] |].
    split; [exact Hticks |].
    repeat (split; [assumption |]).
    exists new. split; [rewrite Hnl; exact Hlen |].
    rewrite Hnc, Hstart. reflexivity.
Qed.

(** Ten timeouts, one second apart, on a new store. *)
Lemma read_ten_batch_completes_witness :
  batch_timer (init []) = false /\
  PseudoSensor.valid (sensor (init [])) /\
  exists s',
    ticks (read_ten (init []))
      (map (fun k => (1 # 2, 1 # 4, inject_Z k))
           [1; 2; 3; 4; 5; 6; 7; 8; 9; 10]) = Ok s' /\
    batch_remaining s' = 0 /\
    batch_timer s' = false /\
    btn_read_one s' = true /\
    btn_read_ten s' = true /\
    List.length (conn s') = 10%nat.
Proof.
  assert (Hidle : batch_timer (init []) = false) by reflexivity.
  assert (Hv : PseudoSensor.valid (sensor (init []))).
  { unfold PseudoSensor.valid; cbn; lia. }
  split; [exact Hidle |]. split; [exact Hv |].
  destruct (read_ten_batch_completes (init [])
              (map (fun k => (1 # 2, 1 # 4, inject_Z k))
                   [1; 2; 3; 4; 5; 6; 7; 8; 9; 10]) Hidle Hv eq_refl)
    as (_ & _ & _ & _ & s' & _ & Hticks & E0 & Eoff & Eb1 & Eb2
        & new & Hnl & Hnc).
  exists s'. split; [exact Hticks |].
  repeat (split; [assumption |]).
  rewrite Hnc. exact Hnl.
Defined.

(** *** Statistics *)

(** C8: on an empty store, [show_stats] opens the information box
    "No readings available yet." and returns: no statistics are computed
    and nothing is raised.  No attribute of the application changes. *)
Theorem show_stats_empty_store (self : SensorApp) :
  conn self = [] ->
  show_stats self = Ok (Information "Stats" (Lit "No readings available yet.")) /\
  step self ClickStats self.
Proof.
  intros Hempty.
  assert (H : show_stats self
              = Ok (Information "Stats" (Lit "No readings available yet."))).
  { unfold show_stats, _fetch_last_n. rewrite Hempty. reflexivity. }
  split; [exact H |]. eapply step_stats. exact H.
Qed.

Lemma show_stats_empty_store_witness :
  conn (init []) = [] /\
  show_stats (init [])
    = Ok (Information "Stats" (Lit "No readings available yet.")).
Proof.
  assert (H : conn (init []) = []) by reflexivity.
  split; [exact H |].
  exact (proj1 (show_stats_empty_store (init []) H)).
Defined.

Lemma show_stats_returns self : exists d, show_stats self = Ok d.
Proof.
  unfold show_stats, _fetch_last_n. change (sqlite_int64 10) with (Ok 10).
  cbn [bind].
  destruct (limit 10 (order_by_ts_desc (conn self))); cbn; eexists;
    reflexivity.
Qed.

(** The scenario of the specification: thresholds 85 and 90, readings
    (10, 20) then (90, 95); the second one raises the alarm, since 95 > 90. *)
Example alarm_scenario :
  let s1 := _check_alarms (init []) (10 # 1) (20 # 1) in
  let s2 := _check_alarms s1 (90 # 1) (95 # 1) in
  ind_text (alarm_label s1) = "No alarms"%string /\
  ind_text (alarm_label s2) = "ALARM!"%string.
Proof. split; reflexivity. Qed.

(** Statistics over two stored readings. *)
Example show_stats_two_rows :
  show_stats (init [(1 # 1, 10 # 1, 20 # 1); (2 # 1, 90 # 1, 95 # 1)])
  = Ok (Information "Last 10 Stats"
          (StatsText 2 (2 # 1) (10 # 1) (90 # 1) (100 # 2)
                     (20 # 1) (95 # 1) (115 # 2))).
Proof. reflexivity. Qed.

(** * Further properties *)

(** ** The generator over several calls *)

Lemma clamp_inside (lo hi x : Q) :
  (lo <= x <= hi)%Q -> (py_max lo (py_min x hi) == x)%Q.
Proof.
  intros [Hlo Hhi]. unfold py_max, py_min.
  assert (E : Qltb hi x = false) by (apply Qltb_ge; exact Hhi).
  rewrite E. destruct (Qltb lo x) eqn:El; [reflexivity |].
  apply Qltb_ge in El. apply Qle_antisym; assumption.
Qed.

Lemma clamp_above (lo hi x : Q) :
  (lo <= hi)%Q -> (hi < x)%Q -> (py_max lo (py_min x hi) == hi)%Q.
Proof.
  intros Hlh Hx. unfold py_max, py_min.
  apply Qltb_lt in Hx. rewrite Hx.
  destruct (Qltb lo hi) eqn:El; [reflexivity |].
  apply Qltb_ge in El. apply Qle_antisym; assumption.
Qed.

Lemma h_band_bounds (i : Z) :
  0 <= i < 15 ->
  exists hb, getitem PseudoSensor.h_range i = Ok hb /\ 0 <= hb <= 90.
Proof.
  intros Hi.
  assert (Hc : i = 0 \/ i = 1 \/ i = 2 \/ i = 3 \/ i = 4 \/ i = 5 \/ i = 6 \/
               i = 7 \/ i = 8 \/ i = 9 \/ i = 10 \/ i = 11 \/ i = 12 \/
               i = 13 \/ i = 14) by lia.
  repeat (destruct Hc as [-> | Hc]; [eexists; split; [reflexivity | lia] |]).
  subst i. eexists; split; [reflexivity | lia].
Qed.

Lemma t_band_bounds (i : Z) :
  0 <= i < 15 ->
  exists tb, getitem PseudoSensor.t_range i = Ok tb /\
             -20 <= tb <= 100 /\ (tb <= 95 \/ (tb = 100 /\ i = 9)).
Proof.
  intros Hi.
  assert (Hc : i = 0 \/ i = 1 \/ i = 2 \/ i = 3 \/ i = 4 \/ i = 5 \/ i = 6 \/
               i = 7 \/ i = 8 \/ i = 9 \/ i = 10 \/ i = 11 \/ i = 12 \/
               i = 13 \/ i = 14) by lia.
  repeat (destruct Hc as [-> | Hc]; [eexists; split; [reflexivity | lia] |]).
  subst i. eexists; split; [reflexivity | lia].
Qed.

(** X1: whatever the jitters, [k] consecutive calls of [generate_values]
    from valid indices all return, move both band indices forward by [k]
    modulo 15, and yield [k] pairs within the output ranges; after a
    multiple of 15 calls the indices are back where they started. *)
Theorem generate_many_cycle (jitters : list (Q * Q)) :
  forall self,
    PseudoSensor.valid self ->
    exists out self',
      generate_many self jitters = Ok (out, self') /\
      List.length out = List.length jitters /\
      PseudoSensor.h_index self'
        = (PseudoSensor.h_index self + len jitters) mod 15 /\
      PseudoSensor.t_index self'
        = (PseudoSensor.t_index self + len jitters) mod 15 /\
      (len jitters mod 15 = 0 ->
         PseudoSensor.h_index self' = PseudoSensor.h_index self /\
         PseudoSensor.t_index self' = PseudoSensor.t_index self) /\
      Forall (fun p => (0 <= fst p <= 100)%Q /\ (-20 <= snd p <= 100)%Q) out.
Proof.
  assert (Hmain : forall self,
    PseudoSensor.valid self ->
    exists out self',
      generate_many self jitters = Ok (out, self') /\
      List.length out = List.length jitters /\
      PseudoSensor.h_index self'
        = (PseudoSensor.h_index self + len jitters) mod 15 /\
      PseudoSensor.t_index self'
        = (PseudoSensor.t_index self + len jitters) mod 15 /\
      Forall (fun p => (0 <= fst p <= 100)%Q /\ (-20 <= snd p <= 100)%Q) out).
  { induction jitters as [| [jh jt] rest IH]; intros self Hv.
    - exists [], self. cbn [generate_many]. unfold len. cbn [List.length].
      destruct Hv as [Hh Ht].
      change (len PseudoSensor.h_range) with 15 in Hh.
      change (len PseudoSensor.t_range) with 15 in Ht.
      rewrite !Z.add_0_r, !Z.mod_small by lia.
      repeat split; constructor.
    - destruct (generate_values_returns self jh jt Hv)
        as (h & t & s1 & Hg & Eh & Et & Hv1).
      destruct (IH s1 Hv1) as (out & s2 & Hm & Hl & Eh2 & Et2 & Hall).
      exists ((h, t) :: out), s2.
      cbn [generate_many]. rewrite Hg. cbn [bind]. rewrite Hm. cbn [bind].
      split; [reflexivity |].
      split; [cbn [List.length]; rewrite Hl; reflexivity |].
      assert (Hlen : len ((jh, jt) :: rest) = 1 + len rest).
      { unfold len. cbn [List.length]. lia. }
      rewrite Hlen, Eh2, Et2, Eh, Et, !Z.add_mod_idemp_l, !Z.add_assoc by lia.
      repeat split.
      constructor; [| exact Hall].
      exact (generate_values_clamped _ _ _ _ _ _ Hg). }
  intros self Hv.
  destruct (Hmain self Hv) as (out & self' & Hm & Hl & Eh & Et & Hall).
  exists out, self'. repeat (split; [assumption |]).
  split; [| exact Hall].
  intros Hper. destruct Hv as [Hh Ht].
  change (len PseudoSensor.h_range) with 15 in Hh.
  change (len PseudoSensor.t_range) with 15 in Ht.
  rewrite Eh, Et.
  rewrite <- (Z.add_mod_idemp_r (PseudoSensor.h_index self)) by lia.
  rewrite <- (Z.add_mod_idemp_r (PseudoSensor.t_index self)) by lia.
  rewrite Hper, !Z.add_0_r, !Z.mod_small by lia.
  split; reflexivity.
Qed.

(** Fifteen calls from the indices (3, 3): back at (3, 3). *)
Lemma generate_many_cycle_witness :
  PseudoSensor.valid (PseudoSensor.mk 3 3 (0 # 1) (0 # 1)) /\
  len (repeat (7 # 2, 5 # 2) 15) mod 15 = 0 /\
  exists out self',
    generate_many (PseudoSensor.mk 3 3 (0 # 1) (0 # 1))
      (repeat (7 # 2, 5 # 2) 15) = Ok (out, self') /\
    PseudoSensor.h_index self' = 3 /\ PseudoSensor.t_index self' = 3.
Proof.
  assert (Hv : PseudoSensor.valid (PseudoSensor.mk 3 3 (0 # 1) (0 # 1))).
  { unfold PseudoSensor.valid; cbn; lia. }
  assert (Hp : len (repeat (7 # 2, 5 # 2) 15) mod 15 = 0) by reflexivity.
  split; [exact Hv |]. split; [exact Hp |].
  destruct (generate_many_cycle (repeat (7 # 2, 5 # 2) 15) _ Hv)
    as (out & self' & Hm & _ & _ & _ & Hper & _).
  exists out, self'. split; [exact Hm |]. exact (Hper Hp).
Defined.

(** X2: with the jitters in the intervals they are drawn from ([0, 10] for
    humidity, [0, 5] for temperature), the humidity clamp never cuts: the
    humidity returned is the sum kept in [hum_val], band value plus jitter.
    The temperature returned is the sum kept in [temp_val] unless that
    exceeds 100, which happens only in band 100 (index 9), where the
    temperature returned is 100. *)
Theorem generate_values_nominal (self : PseudoSensor.t) (jh jt : Q) :
  PseudoSensor.valid self ->
  (0 <= jh <= 10)%Q ->
  (0 <= jt <= 5)%Q ->
  exists hb tb h t self',
    getitem PseudoSensor.h_range (PseudoSensor.h_index self) = Ok hb /\
    getitem PseudoSensor.t_range (PseudoSensor.t_index self) = Ok tb /\
    PseudoSensor.generate_values self jh jt = Ok (h, t, self') /\
    PseudoSensor.hum_val self' = (inject_Z hb + jh)%Q /\
    PseudoSensor.temp_val self' = (inject_Z tb + jt)%Q /\
    (h == PseudoSensor.hum_val self')%Q /\
    ((PseudoSensor.temp_val self' <= 100)%Q ->
       (t == PseudoSensor.temp_val self')%Q) /\
    ((100 < PseudoSensor.temp_val self')%Q ->
       (t == 100)%Q /\ PseudoSensor.t_index self = 9).
Proof.
  intros [Hh Ht] [Hjh0 Hjh1] [Hjt0 Hjt1].
  destruct (h_band_bounds _ Hh) as (hb & Ehb & Hhb0 & Hhb1).
  destruct (t_band_bounds _ Ht) as (tb & Etb & (Htb0 & Htb1) & Htb).
  exists hb, tb. do 3 eexists.
  split; [exact Ehb |]. split; [exact Etb |].
  unfold PseudoSensor.generate_values. rewrite Ehb, Etb. cbn [bind].
  split; [reflexivity |].
  cbn [PseudoSensor.hum_val PseudoSensor.temp_val].
  split; [reflexivity |]. split; [reflexivity |].
  rewrite Zle_Qle in Hhb0, Hhb1, Htb0, Htb1.
  change (inject_Z 0) with (0 # 1) in *.
  change (inject_Z 90) with (90 # 1) in *.
  change (inject_Z (-20)) with (-20 # 1) in *.
  change (inject_Z 100) with (100 # 1) in *.
  split; [apply clamp_inside; split; lra |].
  split.
  - intros Hle. apply clamp_inside. split; [lra | exact Hle].
  - intros Hgt. split; [apply clamp_above; [discriminate | exact Hgt] |].
    destruct Htb as [Hsmall | [_ E9]]; [| exact E9].
    exfalso. rewrite Zle_Qle in Hsmall.
    change (inject_Z 95) with (95 # 1) in Hsmall. lra.
Qed.

(** Band 100 (index 9) with jitter 2.5: humidity 90 + 10 = 100 passes
    unchanged, temperature 102.5 is cut to 100. *)
Lemma generate_values_nominal_witness :
  PseudoSensor.valid (PseudoSensor.mk 9 9 (0 # 1) (0 # 1)) /\
  (0 <= 10 # 1 <= 10)%Q /\ (0 <= 5 # 2 <= 5)%Q /\
  exists h t self',
    PseudoSensor.generate_values (PseudoSensor.mk 9 9 (0 # 1) (0 # 1))
      (10 # 1) (5 # 2) = Ok (h, t, self') /\
    (h == PseudoSensor.hum_val self')%Q /\
    (PseudoSensor.hum_val self' == 100)%Q /\
    (PseudoSensor.temp_val self' == 205 # 2)%Q /\
    (t == 100)%Q.
Proof.
  assert (Hv : PseudoSensor.valid (PseudoSensor.mk 9 9 (0 # 1) (0 # 1))).
  { unfold PseudoSensor.valid; cbn; lia. }
  assert (Hjh : (0 <= 10 # 1 <= 10)%Q) by (split; discriminate).
  assert (Hjt : (0 <= 5 # 2 <= 5)%Q) by (split; discriminate).
  split; [exact Hv |]. split; [exact Hjh |]. split; [exact Hjt |].
  destruct (generate_values_nominal _ (10 # 1) (5 # 2) Hv Hjh Hjt)
    as (hb & tb & h & t & self' & Ehb & Etb & Hg & Ehv & Etv & Eh & _ & Hcut).
  exists h, t, self'.
  cbn in Ehb, Etb. injection Ehb as <-. injection Etb as <-.
  split; [exact Hg |]. split; [exact Eh |].
  rewrite Ehv, Etv in *.
  split; [reflexivity |]. split; [reflexivity |].
  apply Hcut. reflexivity.
Defined.

(** ** The store: which rows a fetch returns *)

Lemma limit_all (n : Z) (l : list row) :
  n < 0 \/ len l <= n -> limit n l = l.
Proof.
  intros Hn. unfold limit. destruct (n <? 0) eqn:E; [reflexivity |].
  apply Z.ltb_ge in E. apply firstn_all2. unfold len in Hn. lia.
Qed.

Lemma limit_split (n : Z) (l : list row) :
  exists rest, limit n l ++ rest = l.
Proof.
  unfold limit. destruct (n <? 0).
  - exists []. apply app_nil_r.
  - exists (skipn (Z.to_nat n) l). apply firstn_skipn.
Qed.

Lemma sorted_app_desc (l1 l2 : list row) :
  StronglySorted desc (l1 ++ l2) ->
  Forall (fun x => Forall (desc x) l2) l1.
Proof.
  induction l1 as [| x l1 IH]; cbn; intros Hs; [constructor |].
  inversion Hs as [| ? ? Hs' Hx]; subst.
  constructor; [| apply IH, Hs'].
  apply Forall_app in Hx. apply Hx.
Qed.

Lemma order_by_ts_desc_length rows : len (order_by_ts_desc rows) = len rows.
Proof.
  unfold len. rewrite (Permutation_length (order_by_ts_desc_perm rows)).
  reflexivity.
Qed.

(** X3: for [n] from 0 up to the largest SQLite integer, the rows that
    [_fetch_last_n(n)] returns are the newest ones: together with the rows
    left out they make up the store, and no row left out has a later
    timestamp than a row returned. *)
Theorem fetch_last_n_newest (self : SensorApp) (n : Z) :
  0 <= n <= 2 ^ 63 - 1 ->
  exists rows rest,
    _fetch_last_n self n = Ok rows /\
    Permutation (rows ++ rest) (conn self) /\
    Forall (fun x => Forall (fun y => (row_ts y <= row_ts x)%Q) rest) rows.
Proof.
  intros Hn. unfold _fetch_last_n.
  rewrite sqlite_int64_nonneg by exact Hn. cbn [bind].
  destruct (limit_split n (order_by_ts_desc (conn self))) as [rest Hrest].
  exists (limit n (order_by_ts_desc (conn self))), rest.
  split; [reflexivity |]. split.
  - rewrite Hrest. apply order_by_ts_desc_perm.
  - apply sorted_app_desc. rewrite Hrest. apply order_by_ts_desc_sorted.
Qed.

Lemma fetch_last_n_newest_witness :
  0 <= 1 <= 2 ^ 63 - 1 /\
  exists rest,
    _fetch_last_n
      (init [(5 # 1, 40 # 1, 70 # 1); (9 # 1, 41 # 1, 71 # 1);
             (7 # 1, 42 # 1, 72 # 1)]) 1 = Ok [(9 # 1, 41 # 1, 71 # 1)] /\
    Forall (fun y => (row_ts y <= 9 # 1)%Q) rest /\
    List.length rest = 2%nat.
Proof.
  assert (Hn : 0 <= 1 <= 2 ^ 63 - 1) by (vm_compute; intuition discriminate).
  split; [exact Hn |].
  destruct (fetch_last_n_newest
              (init [(5 # 1, 40 # 1, 70 # 1); (9 # 1, 41 # 1, 71 # 1);
                     (7 # 1, 42 # 1, 72 # 1)]) 1 Hn)
    as (rows & rest & Hf & Hperm & Hnew).
  vm_compute in Hf. injection Hf as <-.
  exists rest. split; [reflexivity |].
  inversion Hnew as [| ? ? Hx _]; subst. split; [exact Hx |].
  apply Permutation_length in Hperm. cbn in Hperm. lia.
Defined.

(** X4: when [n] is negative, or at least the number of stored rows,
    [_fetch_last_n(n)] returns every row of the store, newest first. *)
Theorem fetch_last_n_whole_store (self : SensorApp) (n : Z) :
  - 2 ^ 63 <= n <= 2 ^ 63 - 1 ->
  n < 0 \/ len (conn self) <= n ->
  exists rows,
    _fetch_last_n self n = Ok rows /\
    Permutation rows (conn self) /\
    StronglySorted desc rows.
Proof.
  intros Hrange Hn. unfold _fetch_last_n.
  rewrite sqlite_int64_in_range by exact Hrange. cbn [bind].
  rewrite limit_all by (rewrite order_by_ts_desc_length; exact Hn).
  eexists. split; [reflexivity |].
  split; [apply order_by_ts_desc_perm | apply order_by_ts_desc_sorted].
Qed.

Lemma fetch_last_n_whole_store_witness :
  - 2 ^ 63 <= -1 <= 2 ^ 63 - 1 /\
  (-1 < 0 \/ len (conn (init [(5 # 1, 40 # 1, 70 # 1);
                              (9 # 1, 41 # 1, 71 # 1)])) <= -1) /\
  exists rows,
    _fetch_last_n (init [(5 # 1, 40 # 1, 70 # 1); (9 # 1, 41 # 1, 71 # 1)])
      (-1) = Ok rows /\
    Permutation rows [(5 # 1, 40 # 1, 70 # 1); (9 # 1, 41 # 1, 71 # 1)].
Proof.
  assert (Hr : - 2 ^ 63 <= -1 <= 2 ^ 63 - 1)
    by (vm_compute; intuition discriminate).
  assert (Hn : -1 < 0 \/ len (conn (init [(5 # 1, 40 # 1, 70 # 1);
                                         (9 # 1, 41 # 1, 71 # 1)])) <= -1)
    by (left; reflexivity).
  split; [exact Hr |]. split; [exact Hn |].
  destruct (fetch_last_n_whole_store _ (-1) Hr Hn) as (rows & Hf & Hp & _).
  exists rows. split; [exact Hf | exact Hp].
Defined.

(** X5: a reading is never lost by [_insert_reading], whatever its
    timestamp: a fetch of more rows than the store held before the insert
    returns the inserted row (with the timestamp the insert returned) among
    all the earlier ones. *)
Theorem insert_then_fetch_all (self : SensorApp) (now h t : Q)
        (ts : option Q) (n : Z) :
  len (conn self) < n <= 2 ^ 63 - 1 ->
  exists rows,
    _fetch_last_n (snd (_insert_reading self now h t ts)) n = Ok rows /\
    In (fst (_insert_reading self now h t ts), h, t) rows /\
    incl (conn self) rows /\
    len rows = len (conn self) + 1.
Proof.
  intros [Hlo Hhi]. rewrite insert_reading_spec. cbn [fst snd].
  unfold _fetch_last_n.
  rewrite sqlite_int64_nonneg by (unfold len in Hlo; lia). cbn [bind].
  cbn [conn set_conn].
  assert (Hlen : forall r : row, len (conn self ++ [r]) = len (conn self) + 1).
  { intros r. unfold len. rewrite length_app. cbn [List.length]. lia. }
  rewrite limit_all
    by (right; rewrite order_by_ts_desc_length, Hlen; lia).
  eexists. split; [reflexivity |].
  split; [| split].
  - eapply Permutation_in; [symmetry; apply order_by_ts_desc_perm |].
    apply in_or_app. right. left. reflexivity.
  - intros r Hr.
    eapply Permutation_in; [symmetry; apply order_by_ts_desc_perm |].
    apply in_or_app. left. exact Hr.
  - rewrite order_by_ts_desc_length. apply Hlen.
Qed.

(** The counterexample store of C1: the row inserted at time 50 is not the
    newest, yet a fetch of two rows returns it. *)
Lemma insert_then_fetch_all_witness :
  len (conn (init [(100 # 1, 1 # 1, 1 # 1)])) < 2 <= 2 ^ 63 - 1 /\
  exists rows,
    _fetch_last_n
      (snd (_insert_reading (init [(100 # 1, 1 # 1, 1 # 1)])
              (50 # 1) (2 # 1) (2 # 1) None)) 2 = Ok rows /\
    In (50 # 1, 2 # 1, 2 # 1) rows.
Proof.
  assert (Hn : len (conn (init [(100 # 1, 1 # 1, 1 # 1)])) < 2 <= 2 ^ 63 - 1)
    by (vm_compute; intuition discriminate).
  split; [exact Hn |].
  destruct (insert_then_fetch_all (init [(100 # 1, 1 # 1, 1 # 1)])
              (50 # 1) (2 # 1) (2 # 1) None 2 Hn)
    as (rows & Hf & Hin & _).
  exists rows. split; [exact Hf | exact Hin].
Defined.

(** ** The display *)

(** Truncation keeps a value between two integers that bound it. *)
Lemma py_int_between (a b : Z) (q : Q) :
  (inject_Z a <= q <= inject_Z b)%Q -> a <= py_int q <= b.
Proof.
  destruct q as [num den]. unfold Qle, py_int. cbn [Qnum Qden inject_Z].
  rewrite !Z.mul_1_r. intros [Ha Hb].
  assert (Hd : 0 < Z.pos den) by lia.
  split.
  - rewrite <- (Z.quot_mul a (Z.pos den)) by lia.
    apply Z.quot_le_mono; assumption.
  - rewrite <- (Z.quot_mul b (Z.pos den)) by lia.
    apply Z.quot_le_mono; assumption.
Qed.

(** X6: whatever values it is given, [_update_latest_display] leaves the
    humidity bar at [int(h)] clamped to 0 .. 100 and the temperature bar at
    [int(t)] clamped to -20 .. 100 (the bars never ignore the value), puts
    [h], [t] on the labels, replaces the timestamp label only when a
    timestamp is passed, and changes neither store, sensor, thresholds,
    status, buttons nor batch state. *)
Theorem update_latest_display_effect (self : SensorApp) (h t : Q)
        (ts : option Q) :
  h_bar (_update_latest_display self h t ts) = Z.max 0 (Z.min (py_int h) 100) /\
  t_bar (_update_latest_display self h t ts)
    = Z.max (-20) (Z.min (py_int t) 100) /\
  0 <= h_bar (_update_latest_display self h t ts) <= 100 /\
  -20 <= t_bar (_update_latest_display self h t ts) <= 100 /\
  h_label (_update_latest_display self h t ts) = HumidityText h /\
  t_label (_update_latest_display self h t ts) = TemperatureText t /\
  ts_label (_update_latest_display self h t ts)
    = match ts with Some v => LastReadingAt v | None => ts_label self end /\
  conn (_update_latest_display self h t ts) = conn self /\
  sensor (_update_latest_display self h t ts) = sensor self /\
  h_alarm (_update_latest_display self h t ts) = h_alarm self /\
  t_alarm (_update_latest_display self h t ts) = t_alarm self /\
  status_label (_update_latest_display self h t ts) = status_label self /\
  btn_read_one (_update_latest_display self h t ts) = btn_read_one self /\
  btn_read_ten (_update_latest_display self h t ts) = btn_read_ten self /\
  batch_timer (_update_latest_display self h t ts) = batch_timer self /\
  batch_remaining (_update_latest_display self h t ts) = batch_remaining self.
Proof.
  assert (Eh : h_bar (_update_latest_display self h t ts)
               = Z.max 0 (Z.min (py_int h) 100)).
  { rewrite <- (bar_setValue_clamped 0 100 (h_bar self)) by lia.
    unfold _update_latest_display, _check_alarms.
    destruct ts; destruct (alarm _ h t); reflexivity. }
  assert (Et : t_bar (_update_latest_display self h t ts)
               = Z.max (-20) (Z.min (py_int t) 100)).
  { rewrite <- (bar_setValue_clamped (-20) 100 (t_bar self)) by lia.
    unfold _update_latest_display, _check_alarms.
    destruct ts; destruct (alarm _ h t); reflexivity. }
  split; [exact Eh |]. split; [exact Et |].
  split; [rewrite Eh; lia |]. split; [rewrite Et; lia |].
  unfold _update_latest_display, _check_alarms.
  destruct ts; destruct (alarm _ h t); cbn; repeat split.
Qed.

(** *** Invariants of the display and of the buttons *)

Lemma read_ten_frame s :
  conn (read_ten s) = conn s /\ sensor (read_ten s) = sensor s /\
  h_label (read_ten s) = h_label s /\ t_label (read_ten s) = t_label s /\
  ts_label (read_ten s) = ts_label s /\ h_bar (read_ten s) = h_bar s /\
  t_bar (read_ten s) = t_bar s /\ alarm_label (read_ten s) = alarm_label s /\
  h_alarm (read_ten s) = h_alarm s /\ t_alarm (read_ten s) = t_alarm s.
Proof. unfold read_ten. destruct (batch_timer s); cbn; repeat split. Qed.

Lemma cycle_displays self s' h t now :
  cycle_effect self s' h t now ->
  (0 <= h <= 100)%Q /\ (-20 <= t <= 100)%Q ->
  displays s' (now, h, t).
Proof.
  intros (_ & El1 & El2 & El3 & Eb1 & Eb2 & _) [Hh Ht].
  unfold displays. cbn [row_ts row_humidity row_temperature fst snd].
  repeat (split; [assumption |]).
  rewrite Eb1, Eb2, !bar_setValue_clamped by lia.
  pose proof (py_int_between 0 100 h Hh).
  pose proof (py_int_between (-20) 100 t Ht).
  lia.
Qed.

(** X7: in every reachable state, either no reading has been taken since
    the start (the store is the file content and the labels are the
    initial ones), or the display shows the last row of the store:
    its humidity, temperature and timestamp on the labels, and the two
    readings truncated towards zero on the bars. *)
Theorem display_shows_last_row (db : list row) (s : SensorApp) :
  reachable db s ->
  (conn s = db /\
   h_label s = Lit "Humidity: -- %" /\
   t_label s = Lit "Temperature: -- °F" /\
   ts_label s = Lit "Last reading at: —") \/
  (exists rows r, conn s = rows ++ [r] /\ in_range r /\ displays s r).
Proof.
  induction 1 as [| s e s' Hr IH Hstep].
  - left. repeat split.
  - pose proof (reachable_sensor_valid _ _ Hr) as Hv.
    assert (Hsame : conn s' = conn s -> h_label s' = h_label s ->
                    t_label s' = t_label s -> ts_label s' = ts_label s ->
                    h_bar s' = h_bar s -> t_bar s' = t_bar s ->
                    (conn s' = db /\
                     h_label s' = Lit "Humidity: -- %" /\
                     t_label s' = Lit "Temperature: -- °F" /\
                     ts_label s' = Lit "Last reading at: —") \/
                    (exists rows r, conn s' = rows ++ [r] /\ in_range r /\
                                    displays s' r)).
    { intros E1 E2 E3 E4 E5 E6. unfold displays in *.
      rewrite E1, E2, E3, E4, E5, E6. exact IH. }
    inversion Hstep; subst; try (apply Hsame; reflexivity).
    + apply read_one_effect in H as (h & t & sn & Hg & _ & Hc & _).
      pose proof (generate_values_clamped _ _ _ _ _ _ Hg) as Hin.
      right. exists (conn s), (now, h, t).
      split; [apply Hc |]. split; [exact Hin |].
      exact (cycle_displays _ _ _ _ _ Hc Hin).
    + destruct (read_ten_frame s)
        as (E1 & _ & E2 & E3 & E4 & E5 & E6 & _).
      apply Hsame; assumption.
    + apply batch_read_tick_effect in H0 as (h & t & sn & Hg & _ & Hc & _).
      pose proof (generate_values_clamped _ _ _ _ _ _ Hg) as Hin.
      right. exists (conn s), (now, h, t).
      split; [apply Hc |]. split; [exact Hin |].
      exact (cycle_displays _ _ _ _ _ Hc Hin).
Qed.

Lemma display_shows_last_row_witness :
  exists s,
    read_one (init [(1 # 1, 50 # 1, 60 # 1)]) (21 # 2) (9 # 2) (5 # 1) = Ok s /\
    reachable [(1 # 1, 50 # 1, 60 # 1)] s /\
    conn s = [(1 # 1, 50 # 1, 60 # 1)] ++ [(5 # 1, 21 # 2, -31 # 2)] /\
    displays s (5 # 1, 21 # 2, -31 # 2) /\
    h_bar s = 10 /\ t_bar s = -15.
Proof.
  eexists. split; [vm_compute; reflexivity |].
  match goal with
  | |- reachable ?db ?s /\ _ =>
      assert (H : reachable db s)
        by (eapply reach_step;
            [apply reach_init
            | apply (step_read_one (init db) (21 # 2) (9 # 2) (5 # 1));
              vm_compute; reflexivity])
  end.
  split; [exact H |]. split; [reflexivity |].
  destruct (display_shows_last_row _ _ H)
    as [(E & _) | (rows & r & E & _ & Hd)]; [discriminate E |].
  change ([(1 # 1, 50 # 1, 60 # 1)] ++ [(5 # 1, 21 # 2, -31 # 2)]
          = rows ++ [r]) in E.
  apply app_inj_tail in E as [_ <-].
  split; [exact Hd |]. split; reflexivity.
Defined.

(** X8: in every reachable state the "Read 1" and "Read 10" buttons are
    enabled exactly when no batch is running. *)
Theorem buttons_enabled_iff_idle (db : list row) (s : SensorApp) :
  reachable db s ->
  btn_read_one s = negb (batch_timer s) /\
  btn_read_ten s = negb (batch_timer s).
Proof.
  induction 1 as [| s e s' Hr [IH1 IH2] Hstep].
  - split; reflexivity.
  - inversion Hstep; subst; try (split; assumption).
    + apply read_one_effect in H
        as (h & t & sn & _ & _ & _ & _ & E1 & E2 & Et & _).
      rewrite E1, E2, Et. split; assumption.
    + unfold read_ten. destruct (batch_timer s) eqn:E.
      * rewrite E. split; assumption.
      * split; reflexivity.
    + apply batch_read_tick_effect in H0
        as (h & t & sn & _ & _ & _ & _ & Hdone & Hmore).
      destruct (Z_le_gt_dec (batch_remaining s - 1) 0) as [Hle | Hgt].
      * destruct (Hdone Hle) as (Et & E1 & E2 & _).
        rewrite Et, E1, E2. split; reflexivity.
      * destruct Hmore as (Et & E1 & E2 & _); [lia |].
        rewrite Et, E1, E2. split; assumption.
Qed.

Lemma buttons_enabled_iff_idle_witness :
  reachable [] (read_ten (init [])) /\
  batch_timer (read_ten (init [])) = true /\
  btn_read_one (read_ten (init [])) = false /\
  btn_read_ten (read_ten (init [])) = false.
Proof.
  assert (H : reachable [] (read_ten (init []))).
  { eapply reach_step; [apply reach_init | apply step_read_ten]. }
  split; [exact H |]. split; [reflexivity |].
  exact (buttons_enabled_iff_idle [] _ H).
Defined.

(** ** Sessions *)

Lemma step_sample s e s' :
  step s e s' ->
  PseudoSensor.valid (sensor s) ->
  (is_sample e = false /\ conn s' = conn s /\ sensor s' = sensor s) \/
  (is_sample e = true /\
   (exists r, conn s' = conn s ++ [r] /\ in_range r) /\
   PseudoSensor.h_index (sensor s')
     = (PseudoSensor.h_index (sensor s) + 1) mod 15 /\
   PseudoSensor.t_index (sensor s')
     = (PseudoSensor.t_index (sensor s) + 1) mod 15).
Proof.
  intros Hstep Hv.
  inversion Hstep; subst; try (left; repeat split; reflexivity).
  - right. apply read_one_effect in H as (h & t & sn & Hg & <- & Hc & _).
    destruct (generate_values_returns (sensor s) jh jt Hv)
      as (h' & t' & sn' & Hg' & Eh & Et & _).
    rewrite Hg in Hg'. injection Hg' as -> -> ->.
    split; [reflexivity |]. split; [| split; assumption].
    exists (now, h', t'). split; [apply Hc |].
    exact (generate_values_clamped _ _ _ _ _ _ Hg).
  - left. destruct (read_ten_frame s) as (E1 & E2 & _).
    repeat split; assumption.
  - right. apply batch_read_tick_effect in H0
      as (h & t & sn & Hg & <- & Hc & _).
    destruct (generate_values_returns (sensor s) jh jt Hv)
      as (h' & t' & sn' & Hg' & Eh & Et & _).
    rewrite Hg in Hg'. injection Hg' as -> -> ->.
    split; [reflexivity |]. split; [| split; assumption].
    exists (now, h', t'). split; [apply Hc |].
    exact (generate_values_clamped _ _ _ _ _ _ Hg).
Qed.

(** X9: the store is append-only over a session, and only the sampling
    handlers write to it.  After any sequence of handled events the store
    is the earlier store followed by exactly one new row per "Read 1" click
    or batch timeout, each within the ranges; "Read 10" clicks, the
    statistics and records views and threshold edits add or remove
    nothing. *)
Theorem run_appends_one_row_per_sample (s : SensorApp) (es : list event)
        (s' : SensorApp) :
  run s es s' ->
  PseudoSensor.valid (sensor s) ->
  exists new,
    conn s' = conn s ++ new /\
    List.length new = samples es /\
    Forall in_range new.
Proof.
  induction 1 as [s | s e s1 es s2 Hstep Hrun IH]; intros Hv.
  - exists []. split; [symmetry; apply app_nil_r |]. split; constructor.
  - destruct (IH (step_sensor_valid _ _ _ Hstep Hv))
      as (new & Hc & Hl & Hall).
    unfold samples in *. cbn [filter].
    destruct (step_sample _ _ _ Hstep Hv)
      as [(Ee & Ec & _) | (Ee & (r & Ec & Hin) & _)]; rewrite Ee.
    + exists new. rewrite Hc, Ec. repeat split; assumption.
    + exists (r :: new). rewrite Hc, Ec, <- app_assoc.
      split; [reflexivity |].
      split; [cbn [List.length]; rewrite Hl; reflexivity |].
      constructor; assumption.
Qed.

(** A single read, a look at the statistics, the start of a batch and its
    first timeout: two rows. *)
Lemma run_appends_one_row_per_sample_witness :
  exists s',
    run (init []) [ClickReadOne (1 # 1) (1 # 1) (5 # 1); ClickStats;
                   ClickReadTen; Timeout (2 # 1) (2 # 1) (6 # 1)] s' /\
    PseudoSensor.valid (sensor (init [])) /\
    exists new,
      conn s' = conn (init []) ++ new /\
      List.length new = 2%nat /\
      Forall in_range new.
Proof.
  assert (Hv : PseudoSensor.valid (sensor (init []))).
  { unfold PseudoSensor.valid; cbn; lia. }
  assert (Hrun : exists s',
            run (init []) [ClickReadOne (1 # 1) (1 # 1) (5 # 1); ClickStats;
                           ClickReadTen; Timeout (2 # 1) (2 # 1) (6 # 1)] s').
  { eexists.
    eapply run_cons; [apply step_read_one; vm_compute; reflexivity |].
    eapply run_cons; [eapply step_stats; vm_compute; reflexivity |].
    eapply run_cons; [apply step_read_ten |].
    eapply run_cons;
      [apply step_timeout; [reflexivity | vm_compute; reflexivity] |].
    apply run_nil. }
  destruct Hrun as [s' Hrun].
  exists s'. split; [exact Hrun |]. split; [exact Hv |].
  exact (run_appends_one_row_per_sample _ _ _ Hrun Hv).
Defined.

(** X10: the two band indices of the sensor move in lock step with the
    store.  In every reachable state both equal the number of rows added
    since the start, modulo 15; so the k-th reading of a session always
    pairs humidity band k with temperature band k. *)
Theorem sensor_index_counts_readings (db : list row) (s : SensorApp) :
  reachable db s ->
  exists k,
    len (conn s) = len db + k /\ 0 <= k /\
    PseudoSensor.h_index (sensor s) = k mod 15 /\
    PseudoSensor.t_index (sensor s) = k mod 15.
Proof.
  induction 1 as [| s e s' Hr (k & Hl & Hk & Eh & Et) Hstep].
  - exists 0. change (conn (init db)) with db. rewrite init_sensor.
    repeat split; try reflexivity; lia.
  - destruct (step_sample _ _ _ Hstep (reachable_sensor_valid _ _ Hr))
      as [(_ & Ec & Es) | (_ & (r & Ec & _) & Eh' & Et')].
    + exists k. rewrite Ec, Es. repeat split; assumption.
    + exists (k + 1). rewrite Ec, Eh', Et', Eh, Et.
      rewrite !Z.add_mod_idemp_l by lia.
      unfold len in *. rewrite length_app. cbn [List.length].
      repeat split; lia.
Qed.

Lemma sensor_index_counts_readings_witness :
  exists s,
    read_one (init [(1 # 1, 50 # 1, 60 # 1)]) (1 # 1) (1 # 1) (5 # 1) = Ok s /\
    reachable [(1 # 1, 50 # 1, 60 # 1)] s /\
    len (conn s) = 2 /\
    PseudoSensor.h_index (sensor s) = 1 /\
    PseudoSensor.t_index (sensor s) = 1.
Proof.
  eexists. split; [vm_compute; reflexivity |].
  match goal with
  | |- reachable ?db ?s /\ _ =>
      assert (H : reachable db s)
        by (eapply reach_step;
            [apply reach_init
            | apply (step_read_one (init db) (1 # 1) (1 # 1) (5 # 1));
              vm_compute; reflexivity])
  end.
  split; [exact H |].
  destruct (sensor_index_counts_readings _ _ H) as (k & Hl & _ & Eh & Et).
  split; [reflexivity |]. split; reflexivity.
Defined.

(** X11: a batch cannot end early.  While fewer timeouts have been handled
    than reads were remaining, every timeout returns, the timer stays
    active, the buttons keep their state, the count goes down by one per
    timeout and the status shows the count. *)
Theorem batch_still_running (inputs : list (Q * Q * Q)) :
  forall s,
    PseudoSensor.valid (sensor s) ->
    batch_timer s = true ->
    0 < len inputs < batch_remaining s ->
    exists s',
      run s (map timeout_of inputs) s' /\
      ticks s inputs = Ok s' /\
      batch_timer s' = true /\
      batch_remaining s' = batch_remaining s - len inputs /\
      btn_read_one s' = btn_read_one s /\
      btn_read_ten s' = btn_read_ten s /\
      status_label s' = BatchRemaining (batch_remaining s') /\
      len (conn s') = len (conn s) + len inputs.
Proof.
  induction inputs as [| [[jh jt] now] rest IH]; intros s Hv Ht Hk;
    [unfold len in Hk; cbn in Hk; lia |].
  assert (Hlen : len (((jh, jt), now) :: rest) = 1 + len rest).
  { unfold len. cbn [List.length]. lia. }
  rewrite Hlen in *.
  assert (Hrest : 0 <= len rest) by (unfold len; lia).
  destruct (batch_read_tick_returns s jh jt now Hv) as [s1 Hs1].
  assert (Hstep : step s (Timeout jh jt now) s1)
    by (apply step_timeout; assumption).
  pose proof (step_sensor_valid _ _ _ Hstep Hv) as Hv1.
  destruct (batch_read_tick_effect _ _ _ _ _ Hs1)
    as (h & t & sn & _ & _ & (Hc & _) & Hr1 & _ & Hmore).
  destruct Hmore as (Et & Eb1 & Eb2 & Es); [lia |].
  assert (Hc1 : len (conn s1) = len (conn s) + 1).
  { rewrite Hc. unfold len. rewrite length_app. cbn [List.length]. lia. }
  cbn [ticks map timeout_of]. rewrite Hs1. cbn [bind].
  destruct rest as [| i rest'].
  - exists s1. split; [econstructor; [exact Hstep | constructor] |].
    split; [reflexivity |].
    split; [rewrite Et; exact Ht |].
    unfold len in *. cbn [List.length] in *.
    split; [lia |].
    split; [exact Eb1 |]. split; [exact Eb2 |].
    split; [rewrite Es, Hr1; reflexivity | lia].
  - destruct (IH s1 Hv1) as (s' & Hrun & Hticks & Et' & Er' & Eb1' & Eb2'
                               & Es' & Hc').
    + rewrite Et. exact Ht.
    + rewrite Hr1. unfold len in *. cbn [List.length] in *. lia.
    + exists s'. split; [econstructor; [exact Hstep | exact Hrun] |].
      split; [exact Hticks |]. split; [exact Et' |].
      split; [rewrite Er', Hr1; lia |].
      split; [rewrite Eb1'; exact Eb1 |].
      split; [rewrite Eb2'; exact Eb2 |].
      split; [exact Es' | rewrite Hc', Hc1; lia].
Qed.

(** Three timeouts into a batch of ten: seven remain, timer active. *)
Lemma batch_still_running_witness :
  PseudoSensor.valid (sensor (read_ten (init []))) /\
  batch_timer (read_ten (init [])) = true /\
  exists s',
    ticks (read_ten (init []))
      [(1 # 1, 1 # 1, 1 # 1); (1 # 1, 1 # 1, 2 # 1); (1 # 1, 1 # 1, 3 # 1)]
      = Ok s' /\
    batch_timer s' = true /\
    batch_remaining s' = 7 /\
    btn_read_one s' = false /\
    len (conn s') = 3.
Proof.
  assert (Hv : PseudoSensor.valid (sensor (read_ten (init [])))).
  { unfold PseudoSensor.valid; cbn; lia. }
  assert (Ht : batch_timer (read_ten (init [])) = true) by reflexivity.
  split; [exact Hv |]. split; [exact Ht |].
  destruct (batch_still_running
              [(1 # 1, 1 # 1, 1 # 1); (1 # 1, 1 # 1, 2 # 1);
               (1 # 1, 1 # 1, 3 # 1)] (read_ten (init [])) Hv Ht)
    as (s' & _ & Hticks & Et & Er & Eb & _ & _ & Hc).
  { vm_compute. split; reflexivity. }
  exists s'. split; [exact Hticks |]. split; [exact Et |].
  split; [exact Er |]. split; [exact Eb | exact Hc].
Defined.

(** ** The alarm after a reading *)

(** X12: the alarm does not latch.  After [read_one], and after a batch
    tick, the indicator reads "ALARM!" exactly when the reading just stored
    exceeds the humidity or the temperature threshold, and "No alarms"
    exactly when it exceeds neither, whatever the indicator showed
    before. *)
Theorem reading_sets_alarm (self : SensorApp) (jh jt now : Q) :
  PseudoSensor.valid (sensor self) ->
  (exists h t s',
     read_one self jh jt now = Ok s' /\
     conn s' = conn self ++ [(now, h, t)] /\
     (ind_text (alarm_label s') = "ALARM!"%string <->
        (h_alarm self < h)%Q \/ (t_alarm self < t)%Q) /\
     (ind_text (alarm_label s') = "No alarms"%string <->
        (h <= h_alarm self)%Q /\ (t <= t_alarm self)%Q)) /\
  (exists h t s',
     _batch_read_tick self jh jt now = Ok s' /\
     conn s' = conn self ++ [(now, h, t)] /\
     (ind_text (alarm_label s') = "ALARM!"%string <->
        (h_alarm self < h)%Q \/ (t_alarm self < t)%Q) /\
     (ind_text (alarm_label s') = "No alarms"%string <->
        (h <= h_alarm self)%Q /\ (t <= t_alarm self)%Q)).
Proof.
  intros Hv. split.
  - destruct (read_one_returns self jh jt now Hv) as [s' Hs'].
    destruct (read_one_effect _ _ _ _ _ Hs') as (h & t & sn & _ & _ & Hc & _).
    exists h, t, s'. split; [exact Hs' |]. split; [apply Hc |].
    exact (cycle_alarm_text _ _ _ _ _ Hc).
  - destruct (batch_read_tick_returns self jh jt now Hv) as [s' Hs'].
    destruct (batch_read_tick_effect _ _ _ _ _ Hs')
      as (h & t & sn & _ & _ & Hc & _).
    exists h, t, s'. split; [exact Hs' |]. split; [apply Hc |].
    exact (cycle_alarm_text _ _ _ _ _ Hc).
Qed.

(** The alarm raised by the reading (90, 95) is cleared by the next
    reading, (0, -20) plus jitter. *)
Lemma reading_sets_alarm_witness :
  PseudoSensor.valid (sensor (_check_alarms (init []) (90 # 1) (95 # 1))) /\
  ind_text (alarm_label (_check_alarms (init []) (90 # 1) (95 # 1)))
    = "ALARM!"%string /\
  exists s',
    read_one (_check_alarms (init []) (90 # 1) (95 # 1))
      (1 # 1) (1 # 1) (5 # 1) = Ok s' /\
    ind_text (alarm_label s') = "No alarms"%string.
Proof.
  assert (Hv : PseudoSensor.valid
                 (sensor (_check_alarms (init []) (90 # 1) (95 # 1)))).
  { unfold PseudoSensor.valid; cbn; lia. }
  split; [exact Hv |]. split; [reflexivity |].
  destruct (proj1 (reading_sets_alarm _ (1 # 1) (1 # 1) (5 # 1) Hv))
    as (h & t & s' & Hs' & Hc & _ & Hno).
  exists s'. split; [exact Hs' |].
  vm_compute in Hs'. injection Hs' as <-. reflexivity.
Defined.

(** ** Statistics and records views *)

Lemma py_min_cases (a b : Q) :
  (py_min a b = a \/ py_min a b = b) /\
  (py_min a b <= a)%Q /\ (py_min a b <= b)%Q.
Proof.
  unfold py_min. destruct (Qltb b a) eqn:E.
  - apply Qltb_lt in E. repeat split; auto using Qle_refl, Qlt_le_weak.
  - apply Qltb_ge in E. repeat split; auto using Qle_refl.
Qed.

Lemma py_max_cases (a b : Q) :
  (py_max a b = a \/ py_max a b = b) /\
  (a <= py_max a b)%Q /\ (b <= py_max a b)%Q.
Proof.
  unfold py_max. destruct (Qltb a b) eqn:E.
  - apply Qltb_lt in E. repeat split; auto using Qle_refl, Qlt_le_weak.
  - apply Qltb_ge in E. repeat split; auto using Qle_refl.
Qed.

Lemma fold_min_spec (rest : list Q) :
  forall x,
    In (fold_left py_min rest x) (x :: rest) /\
    Forall (fun y => (fold_left py_min rest x <= y)%Q) (x :: rest).
Proof.
  induction rest as [| y rest IH]; intros x; cbn [fold_left].
  - split; [left; reflexivity |]. repeat constructor. apply Qle_refl.
  - destruct (IH (py_min x y)) as [Hin Hall].
    destruct (py_min_cases x y) as (Hc & Hx & Hy).
    inversion Hall as [| ? ? Hm Hrest]; subst.
    split.
    + destruct Hin as [Hin | Hin].
      * rewrite <- Hin. destruct Hc as [-> | ->];
          [left | right; left]; reflexivity.
      * right; right; exact Hin.
    + constructor; [eapply Qle_trans; eassumption |].
      constructor; [eapply Qle_trans; eassumption | exact Hrest].
Qed.

Lemma fold_max_spec (rest : list Q) :
  forall x,
    In (fold_left py_max rest x) (x :: rest) /\
    Forall (fun y => (y <= fold_left py_max rest x)%Q) (x :: rest).
Proof.
  induction rest as [| y rest IH]; intros x; cbn [fold_left].
  - split; [left; reflexivity |]. repeat constructor. apply Qle_refl.
  - destruct (IH (py_max x y)) as [Hin Hall].
    destruct (py_max_cases x y) as (Hc & Hx & Hy).
    inversion Hall as [| ? ? Hm Hrest]; subst.
    split.
    + destruct Hin as [Hin | Hin].
      * rewrite <- Hin. destruct Hc as [-> | ->];
          [left | right; left]; reflexivity.
      * right; right; exact Hin.
    + constructor; [eapply Qle_trans; eassumption |].
      constructor; [eapply Qle_trans; eassumption | exact Hrest].
Qed.

Lemma inject_len_cons {A : Type} (x : A) (l : list A) :
  (inject_Z (len (x :: l)) == inject_Z (len l) + 1)%Q.
Proof.
  unfold len. cbn [List.length]. rewrite Nat2Z.inj_succ, <- Z.add_1_r.
  rewrite inject_Z_plus. reflexivity.
Qed.

Lemma fold_sum_bounds (lo hi : Q) (l : list Q) :
  Forall (fun y => (lo <= y <= hi)%Q) l ->
  forall acc,
    (acc + inject_Z (len l) * lo <= fold_left Qplus l acc
       <= acc + inject_Z (len l) * hi)%Q.
Proof.
  induction 1 as [| y l [Hlo Hhi] _ IH]; intros acc; cbn [fold_left].
  - change (inject_Z (len (@nil Q))) with (0 # 1). split; lra.
  - specialize (IH (acc + y)%Q). destruct IH as [IH1 IH2].
    assert (E1 : (inject_Z (len (y :: l)) * lo
                  == inject_Z (len l) * lo + lo)%Q)
      by (rewrite inject_len_cons; ring).
    assert (E2 : (inject_Z (len (y :: l)) * hi
                  == inject_Z (len l) * hi + hi)%Q)
      by (rewrite inject_len_cons; ring).
    rewrite E1, E2. split; lra.
Qed.

(** The mean of a non-empty list lies between any two bounds of its
    elements. *)
Lemma mean_bounds (lo hi : Q) (l : list Q) :
  l <> [] ->
  Forall (fun y => (lo <= y <= hi)%Q) l ->
  exists m, mean l = Ok m /\ (lo <= m <= hi)%Q.
Proof.
  intros Hne Hall. destruct l as [| x l]; [contradiction |].
  eexists. split; [reflexivity |].
  destruct (fold_sum_bounds lo hi _ Hall (0 # 1)) as [H1 H2].
  assert (Hpos : (0 < inject_Z (len (x :: l)))%Q).
  { change (0 # 1) with (inject_Z 0). rewrite <- Zlt_Qlt.
    unfold len. cbn [List.length]. lia. }
  split.
  - apply Qle_shift_div_l; [exact Hpos |]. lra.
  - apply Qle_shift_div_r; [exact Hpos |]. lra.
Qed.

Lemma limit_head (n : Z) (r : row) (l : list row) :
  0 < n -> exists rest, limit n (r :: l) = r :: rest.
Proof.
  intros Hn. unfold limit.
  destruct (n <? 0) eqn:E; [apply Z.ltb_lt in E; lia |].
  destruct (Z.to_nat n) as [| k] eqn:Ek; [lia |].
  eexists. reflexivity.
Qed.

(** What [_fetch_last_n(10)] gives on a non-empty store: a non-empty list
    whose first row is the newest of the whole store. *)
Lemma fetch_last_10_nonempty self :
  conn self <> [] ->
  exists r0 rest,
    _fetch_last_n self 10 = Ok (r0 :: rest) /\
    len (r0 :: rest) = Z.min 10 (len (conn self)) /\
    StronglySorted desc (r0 :: rest) /\
    incl (r0 :: rest) (conn self) /\
    Forall (fun r => (row_ts r <= row_ts r0)%Q) (conn self).
Proof.
  intros Hne. unfold _fetch_last_n. change (sqlite_int64 10) with (Ok 10).
  cbn [bind].
  pose proof (order_by_ts_desc_perm (conn self)) as Hperm.
  pose proof (order_by_ts_desc_sorted (conn self)) as Hsorted.
  destruct (order_by_ts_desc (conn self)) as [| r0 l] eqn:E.
  { apply Permutation_nil in Hperm. contradiction. }
  destruct (limit_head 10 r0 l) as [rest Hrest]; [lia |].
  exists r0, rest. split; [rewrite Hrest; reflexivity |].
  split.
  { rewrite <- Hrest, limit_length by lia. unfold len.
    rewrite (Permutation_length Hperm). reflexivity. }
  split; [rewrite <- Hrest; apply limit_sorted, Hsorted |].
  split.
  { intros z Hz. rewrite <- Hrest in Hz. apply limit_incl in Hz.
    eapply Permutation_in; eassumption. }
  inversion Hsorted as [| ? ? _ Hall]; subst.
  eapply Permutation_Forall; [exact Hperm |].
  constructor; [apply Qle_refl | exact Hall].
Qed.

(** X13: on a non-empty store [show_stats] returns the "Last 10 Stats" box
    over the rows of [_fetch_last_n(10)]: their number is the smaller of 10
    and the store size, and the reading it is labelled with is the newest of
    the whole store. *)
Theorem show_stats_header (self : SensorApp) :
  conn self <> [] ->
  exists rows n newest h_min h_max h_avg t_min t_max t_avg,
    _fetch_last_n self 10 = Ok rows /\
    show_stats self
      = Ok (Information "Last 10 Stats"
              (StatsText n newest h_min h_max h_avg t_min t_max t_avg)) /\
    n = len rows /\
    n = Z.min 10 (len (conn self)) /\
    (exists r, In r (conn self) /\ row_ts r = newest) /\
    Forall (fun r => (row_ts r <= newest)%Q) (conn self).
Proof.
  intros Hne.
  destruct (fetch_last_10_nonempty self Hne)
    as (r0 & rest & Hf & Hlen & _ & Hincl & Hnew).
  exists (r0 :: rest). unfold show_stats. rewrite Hf. cbn [bind].
  cbn [map py_min_seq py_max_seq mean bind].
  do 8 eexists. split; [reflexivity |]. split; [reflexivity |].
  split; [reflexivity |]. split; [exact Hlen |].
  split; [| exact Hnew].
  exists r0. split; [apply Hincl; left |]; reflexivity.
Qed.

Lemma show_stats_header_witness :
  conn (init [(1 # 1, 10 # 1, 20 # 1); (2 # 1, 90 # 1, 95 # 1)]) <> [] /\
  exists h_min h_max h_avg t_min t_max t_avg,
    show_stats (init [(1 # 1, 10 # 1, 20 # 1); (2 # 1, 90 # 1, 95 # 1)])
      = Ok (Information "Last 10 Stats"
              (StatsText 2 (2 # 1) h_min h_max h_avg t_min t_max t_avg)).
Proof.
  assert (Hne : conn (init [(1 # 1, 10 # 1, 20 # 1);
                            (2 # 1, 90 # 1, 95 # 1)]) <> []) by discriminate.
  split; [exact Hne |].
  destruct (show_stats_header _ Hne)
    as (rows & n & newest & a & b & c & d & e & f & Hf & Hs & _).
  vm_compute in Hs. injection Hs as <- <- <- <- <- <- <- <-.
  do 6 eexists. reflexivity.
Defined.

(** X14: the figures of the "Last 10 Stats" box.  For the humidities and,
    separately, the temperatures of the rows fetched, the minimum and the
    maximum shown are values of fetched rows, every fetched value lies
    between them, and so does the average shown. *)
Theorem show_stats_figures (self : SensorApp) :
  conn self <> [] ->
  exists rows n newest h_min h_max h_avg t_min t_max t_avg,
    _fetch_last_n self 10 = Ok rows /\
    show_stats self
      = Ok (Information "Last 10 Stats"
              (StatsText n newest h_min h_max h_avg t_min t_max t_avg)) /\
    In h_min (map row_humidity rows) /\
    In h_max (map row_humidity rows) /\
    In t_min (map row_temperature rows) /\
    In t_max (map row_temperature rows) /\
    Forall (fun r => (h_min <= row_humidity r <= h_max)%Q /\
                     (t_min <= row_temperature r <= t_max)%Q) rows /\
    (h_min <= h_avg <= h_max)%Q /\
    (t_min <= t_avg <= t_max)%Q.
Proof.
  intros Hne.
  destruct (fetch_last_10_nonempty self Hne) as (r0 & rest & Hf & _).
  exists (r0 :: rest). unfold show_stats. rewrite Hf. cbn [bind].
  set (hs := map row_humidity (r0 :: rest)).
  set (ts_vals := map row_temperature (r0 :: rest)).
  destruct (fold_min_spec (map row_humidity rest) (row_humidity r0))
    as [Hhmin_in Hhmin].
  destruct (fold_max_spec (map row_humidity rest) (row_humidity r0))
    as [Hhmax_in Hhmax].
  destruct (fold_min_spec (map row_temperature rest) (row_temperature r0))
    as [Htmin_in Htmin].
  destruct (fold_max_spec (map row_temperature rest) (row_temperature r0))
    as [Htmax_in Htmax].
  change (row_humidity r0 :: map row_humidity rest) with hs in *.
  change (row_temperature r0 :: map row_temperature rest) with ts_vals in *.
  assert (Hhb : Forall (fun y =>
            (fold_left py_min (map row_humidity rest) (row_humidity r0) <= y
             <= fold_left py_max (map row_humidity rest) (row_humidity r0))%Q)
            hs).
  { rewrite Forall_forall in *. intros y Hy. split; auto. }
  assert (Htb : Forall (fun y =>
            (fold_left py_min (map row_temperature rest) (row_temperature r0)
             <= y
             <= fold_left py_max (map row_temperature rest)
                  (row_temperature r0))%Q) ts_vals).
  { rewrite Forall_forall in *. intros y Hy. split; auto. }
  destruct (mean_bounds _ _ hs ltac:(discriminate) Hhb) as (ha & Eha & Hha).
  destruct (mean_bounds _ _ ts_vals ltac:(discriminate) Htb)
    as (ta & Eta & Hta).
  change (py_min_seq hs)
    with (Ok (fold_left py_min (map row_humidity rest) (row_humidity r0))).
  change (py_max_seq hs)
    with (Ok (fold_left py_max (map row_humidity rest) (row_humidity r0))).
  change (py_min_seq ts_vals)
    with (Ok (fold_left py_min (map row_temperature rest)
                (row_temperature r0))).
  change (py_max_seq ts_vals)
    with (Ok (fold_left py_max (map row_temperature rest)
                (row_temperature r0))).
  rewrite Eha, Eta. cbn [bind].
  do 8 eexists. split; [reflexivity |]. split; [reflexivity |].
  repeat (split; [assumption |]).
  split; [| split; assumption].
  rewrite Forall_forall in *. intros r Hr.
  split; [apply Hhb | apply Htb]; unfold hs, ts_vals; apply in_map; exact Hr.
Qed.

Lemma show_stats_figures_witness :
  conn (init [(1 # 1, 10 # 1, 20 # 1); (2 # 1, 90 # 1, 95 # 1);
              (3 # 1, 40 # 1, 50 # 1)]) <> [] /\
  exists n newest h_avg t_avg,
    show_stats (init [(1 # 1, 10 # 1, 20 # 1); (2 # 1, 90 # 1, 95 # 1);
                      (3 # 1, 40 # 1, 50 # 1)])
      = Ok (Information "Last 10 Stats"
              (StatsText n newest (10 # 1) (90 # 1) h_avg
                         (20 # 1) (95 # 1) t_avg)) /\
    (10 # 1 <= h_avg <= 90 # 1)%Q /\ (20 # 1 <= t_avg <= 95 # 1)%Q.
Proof.
  assert (Hne : conn (init [(1 # 1, 10 # 1, 20 # 1); (2 # 1, 90 # 1, 95 # 1);
                            (3 # 1, 40 # 1, 50 # 1)]) <> []) by discriminate.
  split; [exact Hne |].
  destruct (show_stats_figures _ Hne)
    as (rows & n & newest & a & b & c & d & e & f & Hf & Hs & _ & _ & _ & _
        & _ & Hh & Ht).
  vm_compute in Hs. injection Hs as <- <- <- <- <- <- <- <-.
  do 4 eexists. split; [reflexivity |]. split; [exact Hh | exact Ht].
Defined.

Lemma sorted_snoc (l : list row) (x : row) :
  StronglySorted asc l ->
  Forall (fun y => asc y x) l ->
  StronglySorted asc (l ++ [x]).
Proof.
  induction 1 as [| y l Hs IH Hy]; cbn; intros Hall.
  - repeat constructor.
  - inversion Hall as [| ? ? Hyx Hrest]; subst.
    constructor; [apply IH, Hrest |].
    apply Forall_app. split; [exact Hy |].
    constructor; [exact Hyx | constructor].
Qed.

Lemma rev_sorted (l : list row) :
  StronglySorted desc l -> StronglySorted asc (rev l).
Proof.
  induction 1 as [| y l Hs IH Hy]; cbn [rev]; [constructor |].
  apply sorted_snoc; [exact IH |].
  rewrite Forall_forall in *. intros z Hz. apply in_rev in Hz.
  exact (Hy z Hz).
Qed.

(** X15: [show_last10_records] on an empty store opens the information box
    "No readings available yet."; otherwise it opens the records dialog
    with the rows of [_fetch_last_n(10)] in reverse, that is oldest first:
    at most ten lines (as many as the store has, if fewer), each a row of
    the store, in ascending order of timestamp, the last line being the
    newest row of the whole store. *)
Theorem show_last10_records_oldest_first (self : SensorApp) :
  (conn self = [] ->
   show_last10_records self
     = Ok (Information "Last 10 Records" (Lit "No readings available yet."))) /\
  (conn self <> [] ->
   exists lines newest,
     show_last10_records self
       = Ok (RecordsDialog "Last 10 Records" (RecordLines (lines ++ [newest])))
     /\
     _fetch_last_n self 10 = Ok (rev (lines ++ [newest])) /\
     len (lines ++ [newest]) = Z.min 10 (len (conn self)) /\
     incl (lines ++ [newest]) (conn self) /\
     StronglySorted asc (lines ++ [newest]) /\
     Forall (fun r => (row_ts r <= row_ts newest)%Q) (conn self)).
Proof.
  split.
  - intros Hempty. unfold show_last10_records, _fetch_last_n.
    rewrite Hempty. reflexivity.
  - intros Hne.
    destruct (fetch_last_10_nonempty self Hne)
      as (r0 & rest & Hf & Hlen & Hsorted & Hincl & Hnew).
    exists (rev rest), r0.
    unfold show_last10_records. rewrite Hf. cbn [bind].
    change (rev rest ++ [r0]) with (rev (r0 :: rest)).
    split; [reflexivity |].
    split; [rewrite rev_involutive; reflexivity |].
    split; [unfold len in *; rewrite length_rev; exact Hlen |].
    split; [intros z Hz; apply in_rev in Hz; exact (Hincl z Hz) |].
    split; [apply rev_sorted, Hsorted | exact Hnew].
Qed.

Lemma show_last10_records_oldest_first_witness :
  conn (init [(5 # 1, 40 # 1, 70 # 1); (9 # 1, 41 # 1, 71 # 1);
              (7 # 1, 42 # 1, 72 # 1)]) <> [] /\
  show_last10_records (init [(5 # 1, 40 # 1, 70 # 1); (9 # 1, 41 # 1, 71 # 1);
                             (7 # 1, 42 # 1, 72 # 1)])
    = Ok (RecordsDialog "Last 10 Records"
            (RecordLines [(5 # 1, 40 # 1, 70 # 1); (7 # 1, 42 # 1, 72 # 1);
                          (9 # 1, 41 # 1, 71 # 1)])) /\
  exists lines newest,
    show_last10_records (init [(5 # 1, 40 # 1, 70 # 1);
                               (9 # 1, 41 # 1, 71 # 1);
                               (7 # 1, 42 # 1, 72 # 1)])
      = Ok (RecordsDialog "Last 10 Records" (RecordLines (lines ++ [newest])))
    /\ StronglySorted asc (lines ++ [newest]).
Proof.
  assert (Hne : conn (init [(5 # 1, 40 # 1, 70 # 1); (9 # 1, 41 # 1, 71 # 1);
                            (7 # 1, 42 # 1, 72 # 1)]) <> []) by discriminate.
  split; [exact Hne |]. split; [reflexivity |].
  destruct (proj2 (show_last10_records_oldest_first _) Hne)
    as (lines & newest & Hs & _ & _ & _ & Hsorted & _).
  exists lines, newest. split; [exact Hs | exact Hsorted].
Defined.

(** ** The exceptions of the handlers' own code *)

Lemma show_last10_records_returns self :
  exists d, show_last10_records self = Ok d.
Proof.
  unfold show_last10_records, _fetch_last_n.
  change (sqlite_int64 10) with (Ok 10). cbn [bind].
  destruct (limit 10 (order_by_ts_desc (conn self))); eexists; reflexivity.
Qed.

(** X16: on an available store, in every reachable state, no handler fails
    in its own code: the band lookup of the sensor never raises
    [IndexError], binding the limit 10 never raises [OverflowError], and
    the statistics never raise [ValueError] or [StatisticsError], since
    minimum, maximum and mean are only taken of a non-empty list.  Failures
    of the sqlite3 calls and of the timestamp formatting are not exceptions
    of [exn] and are outside this statement. *)
Theorem handlers_raise_no_exn (db : list row) (s : SensorApp) :
  reachable db s ->
  (forall jh jt now (e : exn), read_one s jh jt now <> Raise e) /\
  (forall jh jt now (e : exn), _batch_read_tick s jh jt now <> Raise e) /\
  (forall e : exn, show_stats s <> Raise e) /\
  (forall e : exn, show_last10_records s <> Raise e).
Proof.
  intros Hr. pose proof (reachable_sensor_valid _ _ Hr) as Hv.
  split; [| split; [| split]].
  - intros jh jt now e.
    destruct (read_one_returns s jh jt now Hv) as [s' ->]. discriminate.
  - intros jh jt now e.
    destruct (batch_read_tick_returns s jh jt now Hv) as [s' ->].
    discriminate.
  - intros e. destruct (show_stats_returns s) as [d ->]. discriminate.
  - intros e. destruct (show_last10_records_returns s) as [d ->].
    discriminate.
Qed.

(** A sensor outside its bands would raise; the state after "Read 10" on a
    new store does not. *)
Lemma handlers_raise_no_exn_witness :
  read_one (set_sensor (init []) (PseudoSensor.mk 15 0 (0 # 1) (0 # 1)))
    (1 # 1) (1 # 1) (1 # 1) = Raise IndexError /\
  reachable [] (read_ten (init [])) /\
  read_one (read_ten (init [])) (1 # 1) (1 # 1) (1 # 1) <> Raise IndexError /\
  show_stats (read_ten (init [])) <> Raise ValueError.
Proof.
  split; [reflexivity |].
  assert (H : reachable [] (read_ten (init []))).
  { eapply reach_step; [apply reach_init | apply step_read_ten]. }
  split; [exact H |].
  destruct (handlers_raise_no_exn [] _ H) as (H1 & _ & H3 & _).
  split; [apply H1 | apply H3].
Defined.
